(** * Surveyor: the Microsoft Defender for Endpoint product adapter

    A shallow embedding of [products/microsoft_defender_for_endpoints.py]
    and the properties its specification states about it.

    Python strings are [string]s whose characters are code points below 256;
    a [dict] is an association list in insertion order (what [items()]
    iterates); calls on collaborators ([_echo], [log], [requests.post],
    [_add_results]) are recorded in a trace; exceptions are an outcome of
    the computation, and a pending Ctrl-C is part of the world. *)

From Stdlib Require Import String Ascii List ZArith Bool Lia Permutation DecimalString.
From ExtLib Require Import Structures.Monad Structures.MonadExc.
Import ListNotations.
Import MonadNotation.
Open Scope string_scope.
Open Scope monad_scope.

Set Implicit Arguments.
Set Warnings "-register-all".

(* ===================================================================== *)
(** ** Python values *)
(* ===================================================================== *)

(** [str.isspace] on the code points below 256: TAB..CR, FS..US, SPACE,
    NEL and NBSP. *)
Definition isspace (c : ascii) : bool :=
  let n := nat_of_ascii c in
  (((9 <=? n) && (n <=? 13)) || ((28 <=? n) && (n <=? 32))
   || (n =? 133) || (n =? 160))%nat.

(** [str.rstrip()] with no argument. *)
Fixpoint rstrip (s : string) : string :=
  match s with
  | EmptyString => EmptyString
  | String c s' =>
      match rstrip s' with
      | EmptyString => if isspace c then EmptyString else String c EmptyString
      | r => String c r
      end
  end.

(** [str(n)] for an [int]. *)
Definition str_int (n : Z) : string := NilZero.string_of_int (Z.to_int n).

(** A double quote character on its own. *)
Definition dquote : string := String "034"%char EmptyString.

(** [sep.join(parts)]. *)
Definition join (sep : string) (parts : list string) : string :=
  String.concat sep parts.

(** Iterating a [str] yields its characters as one-character strings. *)
Fixpoint chars (s : string) : list string :=
  match s with
  | EmptyString => []
  | String c s' => String c EmptyString :: chars s'
  end.

(** A decoded JSON document ([response.json()]).  Numbers with a fraction
    are left out: they would need floating point. *)
Inductive json : Type :=
| JNull
| JBool (b : bool)
| JInt (n : Z)
| JStr (s : string)
| JList (items : list json)
| JDict (members : list (string * json)).

(** Lookup in a [dict] with [str] keys. *)
Fixpoint lookup {V : Type} (key : string) (d : list (string * V)) : option V :=
  match d with
  | [] => None
  | (k, v) :: d' => if String.eqb k key then Some v else lookup key d'
  end.

(** A value of a base filter: what the command line hands over, a number
    ([days], [minutes]) or text ([hostname], [username]). *)
Inductive Value : Type :=
| VInt (n : Z)
| VStr (s : string).

(** [f'{value}'] *)
Definition format_value (v : Value) : string :=
  match v with
  | VInt n => str_int n
  | VStr s => s
  end.

(** The value under a key of the criteria: a list of strings, or one
    string ([isinstance(terms, list)] tells them apart). *)
Inductive Terms : Type :=
| TermList (l : list string)
| TermStr (s : string).

Definition BaseFilters := list (string * Value).
Definition SearchCriteria := list (string * Terms).

(** What [for term in terms] iterates. *)
Definition iter_terms (t : Terms) : list string :=
  match t with
  | TermList l => l
  | TermStr s => chars s
  end.

(* ===================================================================== *)
(** ** Collaborators from [common] *)
(* ===================================================================== *)

(** Modelled from the spec: [common.Tag] is not part of the sources; the
    specification calls it a caller-supplied label. *)
Definition Tag := string.

(** Modelled from the spec: [common.Result] is not part of the sources.
    The specification gives a normalized tuple of a device, an account, a
    command line, a path and a tuple of extra columns, compared as a
    whole.  The fields are in the order in which [_post_advanced_query]
    passes them. *)
Record Result : Type := mkResult {
  device : json;
  account : json;
  command_line : json;
  path : json;
  other_data : list json
}.

(** Exceptions.  [KeyboardInterrupt] is the only one here that is not an
    [Exception]. *)
Inductive exn : Type :=
| KeyboardInterrupt
| ValueError (message : string)
| KeyError (key : string)
| TypeError
| JSONDecodeError
| RequestException.

Definition is_Exception (e : exn) : bool :=
  match e with
  | KeyboardInterrupt => false
  | _ => true
  end.

Definition is_KeyboardInterrupt (e : exn) : bool :=
  match e with
  | KeyboardInterrupt => true
  | _ => false
  end.

(** The level argument of [_echo]; [DEFAULT] when the call gives none. *)
Inductive level : Type := DEFAULT | WARNING.

(** A Python [dict] of strings, such as a request body or headers. *)
Definition strdict := list (string * string).

(** What the run does to its collaborators, in order. *)
Inductive event : Type :=
| Echo (message : string) (lvl : level)           (* self._echo(message, lvl) *)
| LogDebug (message : string)                     (* self.log.debug(message) *)
| LogException (e : exn)                          (* self.log.exception(e) *)
| Post (url : string) (data headers : strdict)    (* requests.post(url, ...) *)
| AddResults (results : list Result) (tag : Tag). (* self._add_results(results, tag) *)

(* ===================================================================== *)
(** ** Sets of results *)
(* ===================================================================== *)

(** [hash(x)] succeeds on [None], [bool], [int] and [str]; a [list] or a
    [dict] is unhashable. *)
Definition hashable (j : json) : bool :=
  match j with
  | JList _ | JDict _ => false
  | _ => true
  end.

(** [a == b] on hashable values: [True == 1] and [False == 0]. *)
Definition py_eqb (a b : json) : bool :=
  match a, b with
  | JNull, JNull => true
  | JBool x, JBool y => Bool.eqb x y
  | JBool x, JInt n | JInt n, JBool x => Z.eqb (if x then 1 else 0) n
  | JInt n, JInt m => Z.eqb n m
  | JStr s, JStr t => String.eqb s t
  | _, _ => false
  end.

Fixpoint py_eqb_list (l m : list json) : bool :=
  match l, m with
  | [], [] => true
  | a :: l', b :: m' => py_eqb a b && py_eqb_list l' m'
  | _, _ => false
  end.

(** Equality of two results: all fields, in order. *)
Definition Result_eqb (r s : Result) : bool :=
  py_eqb (device r) (device s) && py_eqb (account r) (account s)
  && py_eqb (command_line r) (command_line s) && py_eqb (path r) (path s)
  && py_eqb_list (other_data r) (other_data s).

Definition Result_hashable (r : Result) : bool :=
  hashable (device r) && hashable (account r) && hashable (command_line r)
  && hashable (path r) && forallb hashable (other_data r).

(** A [set] of results: its elements in insertion order, no two equal. *)
Definition pyset := list Result.

(** [s.add(r)], for a hashable [r]: an element equal to [r] stays. *)
Definition set_insert (r : Result) (s : pyset) : pyset :=
  if existsb (Result_eqb r) s then s else (s ++ [r])%list.

(** What the Python runtime decides and the program does not see: how a
    JSON value and an exception print inside an f-string, and the order in
    which a set is iterated. *)
Class Runtime : Type := {
  str_json : json -> string;
  str_exn : exn -> string;
  iter_set : pyset -> list Result;
  iter_set_perm : forall s, Permutation (iter_set s) s
}.

(* ===================================================================== *)
(** ** The world and the monad of programs *)
(* ===================================================================== *)

Inductive outcome (A : Type) : Type :=
| Ret (a : A)
| Raise (e : exn).
Arguments Ret {A} a.
Arguments Raise {A} e.

(** [sigint = Some n]: the user presses Ctrl-C, and [KeyboardInterrupt] is
    raised once the program has passed [n] more of the points where it can
    observe it (a loop head or a call on a collaborator), at the next one.
    [sigint = None]: the user does not interrupt.  [heap] holds the sets
    the program has created, by reference. *)
Record world : Type := mkWorld {
  sigint : option nat;
  trace : list event;
  heap : list pyset
}.

Definition M (A : Type) : Type := world -> outcome A * world.

#[export] Instance Monad_M : Monad M := {
  ret := fun A (a : A) w => (Ret a, w);
  bind := fun A B (m : M A) (k : A -> M B) w =>
            match m w with
            | (Ret a, w') => k a w'
            | (Raise e, w') => (Raise e, w')
            end
}.

#[export] Instance MonadExc_M : MonadExc exn M := {
  raise := fun A e w => (Raise e, w);
  catch := fun A (m : M A) (h : exn -> M A) w =>
             match m w with
             | (Ret a, w') => (Ret a, w')
             | (Raise e, w') => h e w'
             end
}.

(** [try: body except KeyboardInterrupt: handler] *)
Definition try_except_KeyboardInterrupt (body handler : M unit) : M unit :=
  catch body (fun e => if is_KeyboardInterrupt e then handler else raise e).

(** A value that evaluating an expression gave, or the exception it raised. *)
Definition lift {A : Type} (o : outcome A) : M A := fun w => (o, w).

(** A point where a pending Ctrl-C is observed. *)
Definition tick : M unit := fun w =>
  match sigint w with
  | None => (Ret tt, w)
  | Some 0 => (Raise KeyboardInterrupt, mkWorld None (trace w) (heap w))
  | Some (S n) => (Ret tt, mkWorld (Some n) (trace w) (heap w))
  end.

(** A call on a collaborator. *)
Definition call (e : event) : M unit :=
  tick ;; fun w => (Ret tt, mkWorld (sigint w) (trace w ++ [e])%list (heap w)).

Definition _echo (message : string) (lvl : level) : M unit := call (Echo message lvl).
Definition log_debug (message : string) : M unit := call (LogDebug message).
Definition log_exception (e : exn) : M unit := call (LogException e).
Definition _add_results (results : list Result) (tag : Tag) : M unit :=
  call (AddResults results tag).

(** [for x in xs: body], with a variable [acc] that the body updates. *)
Fixpoint for_in {A S : Type} (xs : list A) (acc : S) (body : S -> A -> M S) : M S :=
  match xs with
  | [] => tick ;; ret acc
  | x :: xs' => tick ;; acc' <- body acc x ;; for_in xs' acc' body
  end.

(** [for x in xs: body] *)
Definition for_each {A : Type} (xs : list A) (body : A -> M unit) : M unit :=
  for_in xs tt (fun _ x => body x).

(** [set()]: a reference to a new, empty set. *)
Definition new_set : M nat := fun w =>
  (Ret (length (heap w)), mkWorld (sigint w) (trace w) (heap w ++ [[]])%list).

Fixpoint update {A : Type} (i : nat) (f : A -> A) (l : list A) : list A :=
  match l, i with
  | [], _ => []
  | x :: l', 0 => f x :: l'
  | x :: l', S i' => x :: update i' f l'
  end.

(** [results.add(r)] *)
Definition set_add (ref : nat) (r : Result) : M unit := fun w =>
  if Result_hashable r
  then (Ret tt, mkWorld (sigint w) (trace w) (update ref (set_insert r) (heap w)))
  else (Raise TypeError, w).

(** [list(results)] *)
Definition list_of_set `{Runtime} (ref : nat) : M (list Result) := fun w =>
  (Ret (iter_set (nth ref (heap w) [])), w).

(* ===================================================================== *)
(** ** The adapter *)
(* ===================================================================== *)

Record mapping : Type := mkMapping {
  table : string;
  field : string;
  additional : option string;
  projections : list string
}.

Definition PARAMETER_MAPPING : list (string * mapping) :=
  [ ("process_name", mkMapping "DeviceProcessEvents" "FolderPath" None
       ["DeviceName"; "AccountName"; "FolderPath"; "ProcessCommandLine"]);
    ("filemod", mkMapping "DeviceFileEvents" "FolderPath" None
       ["DeviceName"; "InitiatingProcessAccountName"; "InitatingProcessFolderPath";
        "ProcessCommandLine"]);
    ("ipaddr", mkMapping "DeviceNetworkEvents" "RemoteIP" None
       ["DeviceName"; "InitiatingProcessAccountName"; "InitatingProcessFolderPath";
        "ProcessCommandLine"]);
    ("cmdline", mkMapping "DeviceProcessEvents" "ProcessCommandLine" None
       ["DeviceName"; "AccountName"; "FolderPath"; "ProcessCommandLine"]);
    ("digsig_publisher", mkMapping "DeviceFileCertificateInfo" "Signer"
       (Some "| join kind=inner DeviceProcessEvents on $left.SHA1 == $right.SHA1")
       ["DeviceName"; "AccountName"; "FolderPath"; "ProcessCommandLine"]);
    ("domain", mkMapping "DeviceNetworkEvents" "RemoteUrl" None
       ["DeviceName"; "InitiatingProcessAccountName"; "InitatingProcessFolderPath";
        "ProcessCommandLine"]);
    ("internal_name", mkMapping "DeviceProcessEvents" "ProcessVersionInfoInternalFileName" None
       ["DeviceName"; "AccountName"; "FolderPath"; "ProcessCommandLine"]);
    ("md5", mkMapping "DeviceProcessEvents" "MD5" None
       ["DeviceName"; "AccountName"; "FolderPath"; "ProcessCommandLine"]);
    ("sha1", mkMapping "DeviceProcessEvents" "SHA1" None
       ["DeviceName"; "AccountName"; "FolderPath"; "ProcessCommandLine"]);
    ("sha256", mkMapping "DeviceProcessEvents" "SHA256" None
       ["DeviceName"; "AccountName"; "FolderPath"; "ProcessCommandLine"]) ].

(** The class attribute [product]. *)
Definition product : string := "dfe".

Definition build_query (filters : BaseFilters) : M string :=
  for_in filters "" (fun query_base '(key, value) =>
    if String.eqb key "days" then
      ret (query_base ++ "| where Timestamp > ago(" ++ format_value value ++ "d)")
    else if String.eqb key "minutes" then
      ret (query_base ++ "| where Timestamp > ago(" ++ format_value value ++ "m)")
    else if String.eqb key "hostname" then
      ret (query_base ++ "| where DeviceName contains " ++ dquote ++ format_value value ++ dquote)
    else if String.eqb key "username" then
      ret (query_base ++ "| where AccountName contains " ++ dquote ++ format_value value ++ dquote)
    else
      _echo ("Query filter " ++ key ++ " is not supported by product " ++ product) WARNING ;;
      ret query_base).

Definition process_search (tag : Tag) (base_query : BaseFilters) (query : string) : M unit :=
  clause <- build_query base_query ;;
  let query := query ++ clause in
  let query := rstrip query in
  log_debug ("Query: " ++ query) ;;
  let full_query : strdict := [("Query", query)] in
  (* the call of _post_advanced_query on full_query and the call of
     _add_results on its results are commented out in the source *)
  ret tt.

Section Adapter.

Context {runtime : Runtime}.

(** The statements under [try:] in [nested_process_search]: the loop
    over the criteria.  [query_base] is the local variable of that name. *)
Definition nested_process_search_try (tag : Tag) (criteria : SearchCriteria)
    (base_query : BaseFilters) (query_base : string) : M unit :=
  for_each criteria (fun '(search_field, terms) =>
    if String.eqb search_field "query" then
      match terms with
      | TermList l =>
          for_each l (fun query_entry =>
            let query_entry := query_entry ++ query_base in
            process_search tag [] query_entry)
      | TermStr s => process_search tag base_query s
      end
    else
      let all_terms :=
        join ", " (map (fun term => "'" ++ term ++ "'") (iter_terms terms)) in
      match lookup search_field PARAMETER_MAPPING with
      | None =>
          _echo ("Query filter " ++ search_field ++ " is not supported by product "
                 ++ product) WARNING
          (* continue *)
      | Some m =>
          let query := "| where " ++ field m ++ " has_any (" ++ all_terms ++ ")" in
          let query := table m ++ " " ++ query ++ " " in
          let query := query ++ match additional m with Some a => a | None => "" end in
          let query := query ++ " " ++ query_base ++ " | project "
                       ++ join ", " (projections m) in
          process_search tag [] query
      end).

Definition nested_process_search (tag : Tag) (criteria : SearchCriteria)
    (base_query : BaseFilters) : M unit :=
  results <- new_set ;;
  query_base <- build_query base_query ;;
  try_except_KeyboardInterrupt
    (nested_process_search_try tag criteria base_query query_base)
    (_echo "Caught CTRL-C. Returning what we have..." DEFAULT) ;;
  l <- list_of_set results ;;
  _add_results l tag.

(** *** The search executor *)

(** A response of the transport: [response.json()] raises when the body
    is not JSON. *)
Record Response : Type := mkResponse {
  status_code : Z;
  response_json : outcome json
}.

(** [requests.post(url, data=json.dumps(data).encode('utf-8'), headers=headers)]:
    the transport answers or raises. *)
Variable requests_post : string -> strdict -> strdict -> outcome Response.

(** [j[key]] for a [str] key. *)
Definition getitem (j : json) (key : string) : outcome json :=
  match j with
  | JDict d =>
      match lookup key d with
      | Some v => Ret v
      | None => Raise (KeyError key)
      end
  | _ => Raise TypeError
  end.

(** What [for res in j] iterates: the items of a list, the keys of a
    dict, the characters of a string. *)
Definition iter_json (j : json) : outcome (list json) :=
  match j with
  | JList l => Ret l
  | JDict d => Ret (map (fun kv => JStr (fst kv)) d)
  | JStr s => Ret (map JStr (chars s))
  | _ => Raise TypeError
  end.

(** The statements under [try:] in [_post_advanced_query]; [results] is
    the set created before it. *)
Definition _post_advanced_query_try (results : nat) (data headers : strdict) : M unit :=
  let url := "https://api.securitycenter.microsoft.com/api/advancedqueries/run" in
  call (Post url data headers) ;;
  response <- lift (requests_post url data headers) ;;
  if (status_code response =? 200)%Z then
    body <- lift (response_json response) ;;
    rows <- lift (getitem body "Results") ;;
    rows <- lift (iter_json rows) ;;
    for_each rows (fun res =>
      device <- lift (getitem res "DeviceName") ;;
      account <- lift (getitem res "AccountName") ;;
      command_line <- lift (getitem res "ProcessCommandLine") ;;
      path <- lift (getitem res "FolderPath") ;;
      timestamp <- lift (getitem res "Timestamp") ;;
      let result := mkResult device account command_line path [timestamp] in
      set_add results result)
  else
    body <- lift (response_json response) ;;
    _echo ("Received status code: " ++ str_int (status_code response)
           ++ " (message: " ++ str_json body ++ ")") DEFAULT.

Definition _post_advanced_query (data headers : strdict) : M (list Result) :=
  results <- new_set ;;
  catch (_post_advanced_query_try results data headers)
    (fun e =>
       if is_KeyboardInterrupt e then
         _echo "Caught CTRL-C. Rerun surveyor" DEFAULT
       else if is_Exception e then
         _echo ("There was an exception " ++ str_exn e) DEFAULT ;;
         log_exception e
       else raise e) ;;
  list_of_set results.

(** *** Construction and credentials *)

Record DefenderForEndpoints : Type := mkDefenderForEndpoints {
  profile : string;
  creds_file : string
}.

(** A credential file as [config.read] finds it: its sections in the
    order of the file, the section [DEFAULT] among them when the file
    has one, each with its options as the file spells them.  (The parser
    is strict: a file with two sections, or two options of a section, of
    the same name is refused at reading.) *)
Definition ConfigParser := list (string * strdict).

(** [str.lower] on code points below 256: the capital letters are
    A..Z and the Latin-1 capitals 192..222, the multiplication sign 215
    apart; each is 32 below its small letter. *)
Definition lower_char (c : ascii) : ascii :=
  let n := nat_of_ascii c in
  if ((65 <=? n)%nat && (n <=? 90)%nat)
     || ((192 <=? n)%nat && (n <=? 222)%nat && negb (n =? 215)%nat)
  then ascii_of_nat (n + 32)
  else c.

Fixpoint lower (s : string) : string :=
  match s with
  | EmptyString => EmptyString
  | String c rest => String (lower_char c) (lower rest)
  end.

(** [RawConfigParser.optionxform]: option names are compared in lower
    case, both when the file is read and when an option is looked up. *)
Definition optionxform (optionstr : string) : string := lower optionstr.

Definition default_section : string := "DEFAULT".

(** [self._defaults]: the options of the section [DEFAULT]; none when
    the file has no such section. *)
Definition _defaults (config : ConfigParser) : strdict :=
  match lookup default_section config with
  | Some options => options
  | None => []
  end.

(** [self._sections[section]]: the options of a section of its own name. *)
Definition _sections (config : ConfigParser) (section : string)
  : option strdict :=
  if String.eqb section default_section then None else lookup section config.

(** [option in mapping], for a mapping whose names were stored through
    [optionxform] at reading. *)
Definition stored (option : string) (options : strdict) : bool :=
  existsb (fun kv => String.eqb (optionxform (fst kv)) option) options.

(** [RawConfigParser.has_section]: the section [DEFAULT] is not
    acknowledged. *)
Definition has_section (config : ConfigParser) (section : string) : bool :=
  match _sections config section with
  | Some _ => true
  | None => false
  end.

(** [RawConfigParser.has_option]: for the empty name or [DEFAULT] the
    defaults alone; otherwise the section's own options, then the
    defaults. *)
Definition has_option (config : ConfigParser) (section option : string)
  : bool :=
  if String.eqb section "" || String.eqb section default_section then
    stored (optionxform option) (_defaults config)
  else
    match _sections config section with
    | None => false
    | Some options =>
        stored (optionxform option) options
        || stored (optionxform option) (_defaults config)
    end.

(** [key in config], [RawConfigParser.__contains__]. *)
Definition config_contains (config : ConfigParser) (key : string) : bool :=
  String.eqb key default_section || has_section config key.

(** [os.path.isfile] and the content [config.read] finds, or the error
    it raises on a malformed file. *)
Variable os_path_isfile : string -> bool.
Variable config_read : string -> outcome ConfigParser.

(** [section = config[self.profile]] is a proxy that keeps the name of
    the section; [key in section] asks the parser [has_option]. *)
Definition _authenticate (self : DefenderForEndpoints) : M unit :=
  config <- lift (config_read (creds_file self)) ;;
  if negb (config_contains config (profile self)) then
    raise (ValueError ("Profile " ++ profile self
                       ++ " is not present in credential file"))
  else
    let section := profile self in
    if negb (has_option config section "tenantId")
       || negb (has_option config section "appId")
       || negb (has_option config section "appSecret")
    then
      raise (ValueError
               "Credential file must contain tenantId, appId, and appSecret values")
    else
      (* the call of _get_aad_token is commented out in the source *)
      ret tt.



End Adapter.

(** A runtime to run the model on examples: sets are iterated in
    insertion order; values print as Python prints them when their
    strings need no escaping. *)
Fixpoint repr_json (j : json) : string :=
  match j with
  | JNull => "None"
  | JBool true => "True"
  | JBool false => "False"
  | JInt n => str_int n
  | JStr s => "'" ++ s ++ "'"
  | JList l => "[" ++ join ", " (map repr_json l) ++ "]"
  | JDict d =>
      "{" ++ join ", " (map (fun kv => let '(k, v) := kv in
                                       "'" ++ k ++ "': " ++ repr_json v) d) ++ "}"
  end.

Definition sample_runtime : Runtime := {|
  str_json := fun j => match j with JStr s => s | _ => repr_json j end;
  str_exn := fun e =>
    match e with
    | KeyboardInterrupt => ""
    | ValueError m => m
    | KeyError k => "'" ++ k ++ "'"
    | TypeError => "object is not subscriptable"
    | JSONDecodeError => "Expecting value: line 1 column 1 (char 0)"
    | RequestException => "connection failed"
    end;
  iter_set := fun s => s;
  iter_set_perm := fun s => Permutation_refl s
|}.

(** The world at the start of a run: no set yet, nothing done, and the
    interrupt [sigint] pending (or none). *)
Definition start (sigint : option nat) : world := mkWorld sigint [] [].


(* ===================================================================== *)
(** ** The rest of the adapter *)
(* ===================================================================== *)

Definition get_other_row_headers : list string := ["Timestamp"].

(** [response.raise_for_status()]: a status from 400 to 599 raises
    [HTTPError], which is a [RequestException]. *)
Definition raise_for_status (response : Response) : outcome unit :=
  if ((400 <=? status_code response) && (status_code response <? 600))%Z
  then Raise RequestException
  else Ret tt.

(** [requests.get(url, data=body)] is the argument [requests_get]: the
    token service answers or the call raises.  Nothing here is under a
    [try]. *)
Definition _get_aad_token
    (requests_get : string -> strdict -> outcome Response)
    (tenant_id app_id app_secret : string) : M json :=
  log_debug ("Acquiring AAD access token for tenant " ++ tenant_id
             ++ " and app " ++ app_id) ;;
  let body : strdict :=
    [ ("resource", "https://api.securitycenter.windows.com");
      ("client_id", app_id);
      ("client_secret", app_secret);
      ("grant_type", "client_credentials") ] in
  let url := "https://login.windows.net/" ++ tenant_id ++ "/oauth2/token" in
  response <- lift (requests_get url body) ;;
  lift (raise_for_status response) ;;
  token_response <- lift (response_json response) ;;
  lift (getitem token_response "access_token").

(* ===================================================================== *)
(** ** The catalogue converter [contrib/rmm2def.py] *)
(* ===================================================================== *)

(** The line feed on its own. *)
Definition newline : string := String "010"%char EmptyString.

(** [s.split(sep)] for a separator of one character: the pieces between
    the separators, at least one. *)
Fixpoint str_split (sep : ascii) (s : string) : list string :=
  match s with
  | EmptyString => [EmptyString]
  | String c s' =>
      if Ascii.eqb c sep then EmptyString :: str_split sep s'
      else
        match str_split sep s' with
        | piece :: pieces => String c piece :: pieces
        | [] => [String c EmptyString]
        end
  end.

(** [s.replace(c, '')] for one character [c]. *)
Fixpoint str_remove (c : ascii) (s : string) : string :=
  match s with
  | EmptyString => EmptyString
  | String x s' => if Ascii.eqb x c then str_remove c s' else String x (str_remove c s')
  end.

(** [s[:-2]]: all but the last two characters. *)
Fixpoint drop_last_two (s : string) : string :=
  match s with
  | EmptyString => EmptyString
  | String c rest =>
      match rest with
      | EmptyString => EmptyString
      | String _ EmptyString => EmptyString
      | _ => String c (drop_last_two rest)
      end
  end.

(** A row of the data frame.  [Software] is the cell as the f-string
    prints it; the two other cells are [None] when they hold no text (an
    empty cell is read as NaN). *)
Record Row : Type := mkRow {
  Software : string;
  Executables : option string;
  Domain : option string
}.

(** The text that the script prints: [out] at the call of [print]. *)
Definition rmm2def (df : list Row) : string :=
  let out := "{" ++ newline in
  let out :=
    fold_left (fun out row =>
      let out := out ++ "  " ++ dquote ++ Software row ++ dquote ++ ": " ++ "{" ++ newline in
      let out :=
        match Executables row with
        | Some (String _ _ as executables) =>
            let out := out ++ "    " ++ dquote ++ "process_name" ++ dquote ++ ": ["
                       ++ newline in
            let out :=
              fold_left (fun out process =>
                out ++ "      " ++ dquote ++ str_remove "034"%char process ++ dquote
                ++ "," ++ newline)
                (str_split ","%char executables) out in
            let out := drop_last_two out ++ newline in
            out ++ "    ]," ++ newline
        | _ => out
        end in
      let out :=
        match Domain row with
        | Some (String _ _ as domains) =>
            let out := out ++ "    " ++ dquote ++ "domain" ++ dquote ++ ": [" ++ newline in
            let out :=
              fold_left (fun out domain =>
                out ++ "      " ++ dquote ++ hd "" (str_split "/"%char domain) ++ dquote
                ++ "," ++ newline)
                (str_split ","%char domains) out in
            let out := drop_last_two out ++ newline in
            out ++ "    ]" ++ newline
        | _ => drop_last_two out ++ newline
        end in
      out ++ "  }," ++ newline) df out in
  let out := drop_last_two out ++ newline in
  out ++ "}" ++ newline.

(* ===================================================================== *)
(** ** Vocabulary of the properties *)
(* ===================================================================== *)

(** *** Running the model *)

(** [quietly m a evs]: with no Ctrl-C pending, [m] returns [a], reports
    [evs] and leaves the sets alone. *)
Definition quietly {A : Type} (m : M A) (a : A) (evs : list event) : Prop :=
  forall t h, m (mkWorld None t h) = (Ret a, mkWorld None (t ++ evs)%list h).

(** [orderly m]: whatever is pending, [m] leaves the sets alone, and the
    only exception it lets out is the user's [KeyboardInterrupt], after
    which no interrupt is pending. *)
Definition orderly {A : Type} (m : M A) : Prop :=
  forall w,
    heap (snd (m w)) = heap w
    /\ forall e, fst (m w) = Raise e ->
                 e = KeyboardInterrupt /\ sigint (snd (m w)) = None.

(** Events that only report: the sink and the transport are not among
    them. *)
Definition is_report (e : event) : bool :=
  match e with
  | Echo _ _ | LogDebug _ => true
  | _ => false
  end.

(** What [process_search] leaves of a query it has built: with the
    dispatch disabled, the line in the debug log. *)
Definition query_built (query : string) : event := LogDebug ("Query: " ++ query).

(** The warning about a key the product does not support. *)
Definition unsupported (key : string) : event :=
  Echo ("Query filter " ++ key ++ " is not supported by product dfe") WARNING.

(** The address of the advanced-query service. *)
Definition advanced_query_url : string :=
  "https://api.securitycenter.microsoft.com/api/advancedqueries/run".

(** *** The base clause, in the words of the specification *)

(** The text before and after the value, for each recognized key. *)
Definition clause_forms : list (string * (string * string)) :=
  [ ("days", ("| where Timestamp > ago(", "d)"));
    ("minutes", ("| where Timestamp > ago(", "m)"));
    ("hostname", ("| where DeviceName contains " ++ dquote, dquote));
    ("username", ("| where AccountName contains " ++ dquote, dquote)) ].

(** The clause of one filter; none for a key that is not recognized. *)
Definition base_clause (key : string) (v : Value) : option string :=
  match lookup key clause_forms with
  | Some (before, after) => Some (before ++ format_value v ++ after)
  | None => None
  end.

(** The clauses of the recognized filters, in iteration order. *)
Definition base_clauses (filters : BaseFilters) : list string :=
  flat_map (fun '(key, v) =>
              match base_clause key v with Some c => [c] | None => [] end) filters.

(** The warnings about the other filters, in iteration order. *)
Definition base_warnings (filters : BaseFilters) : list event :=
  flat_map (fun '(key, v) =>
              match base_clause key v with Some _ => [] | None => [unsupported key] end)
           filters.

(** The base clause: the clauses put one after the other. *)
Definition base_clause_text (filters : BaseFilters) : string :=
  String.concat "" (base_clauses filters).

(** *** The criteria expander, in the words of the specification *)

(** Quote and comma-join the literal terms. *)
Definition quoted_terms (ts : list string) : string :=
  join ", " (map (fun t => "'" ++ t ++ "'") ts).

(** [<table> | where <column> has_any (<quoted terms>) [<joins>] <base
    clause> | project <projectedColumns>] *)
Definition membership_query (m : mapping) (ts : list string) (clause : string) : string :=
  table m ++ " | where " ++ field m ++ " has_any (" ++ quoted_terms ts ++ ") "
  ++ match additional m with Some joins => joins | None => "" end
  ++ " " ++ clause ++ " | project " ++ join ", " (projections m).

(** What one entry of the criteria makes the expander do. *)
Definition expand_entry (base_query : BaseFilters) (entry : string * Terms) : list event :=
  let '(key, ts) := entry in
  if String.eqb key "query" then
    match ts with
    | TermList raws =>
        map (fun raw => query_built (rstrip (raw ++ base_clause_text base_query))) raws
    | TermStr raw =>
        (base_warnings base_query
         ++ [query_built (rstrip (raw ++ base_clause_text base_query))])%list
    end
  else
    match lookup key PARAMETER_MAPPING with
    | None => [unsupported key]
    | Some m =>
        [query_built
           (rstrip (membership_query m (iter_terms ts) (base_clause_text base_query)))]
    end.

Definition expand (base_query : BaseFilters) (criteria : SearchCriteria) : list event :=
  flat_map (expand_entry base_query) criteria.

(** *** The rows of a response and the set of their results *)

(** The result that a row of the response gives, if it has the five
    columns. *)
Definition result_of_row (res : json) : option Result :=
  match res with
  | JDict columns =>
      match lookup "DeviceName" columns, lookup "AccountName" columns,
            lookup "ProcessCommandLine" columns, lookup "FolderPath" columns,
            lookup "Timestamp" columns with
      | Some d, Some a, Some c, Some p, Some ts => Some (mkResult d a c p [ts])
      | _, _, _, _, _ => None
      end
  | _ => None
  end.

(** A row that the executor can turn into a member of the set. *)
Definition well_formed_row (res : json) (r : Result) : Prop :=
  result_of_row res = Some r /\ Result_hashable r = true.

(** The set after adding the results one by one. *)
Definition collect (rs : list Result) (s : pyset) : pyset :=
  fold_left (fun s r => set_insert r s) rs s.

(** No result of the list equals an earlier one. *)
Fixpoint pairwise_distinct (l : list Result) : Prop :=
  match l with
  | [] => True
  | x :: l' => Forall (fun y => Result_eqb y x = false) l' /\ pairwise_distinct l'
  end.

(** [keeps_distinct ref m]: if no two members of the set behind [ref]
    are equal before [m], none are after it, however [m] ends. *)
Definition keeps_distinct {A : Type} (ref : nat) (m : M A) : Prop :=
  forall w,
    pairwise_distinct (nth ref (heap w) []) ->
    pairwise_distinct (nth ref (heap (snd (m w))) []).

(** What the handlers report when decoding the body raises [e]. *)
Definition undecodable_reports `{Runtime} (e : exn) : list event :=
  if is_Exception e
  then [Echo ("There was an exception " ++ str_exn e) DEFAULT; LogException e]
  else [Echo "Caught CTRL-C. Rerun surveyor" DEFAULT].

(** *** Inputs for examples *)

(** A response for examples: two rows with the same tuple around a
    third one. *)
Definition demo_row (device_name : string) : json :=
  JDict [ ("Timestamp", JStr "2024-05-01T10:00:00Z");
          ("DeviceName", JStr device_name);
          ("AccountName", JStr "alice");
          ("ProcessCommandLine", JStr "evil.exe -x");
          ("FolderPath", JStr "C:\tools\evil.exe") ].

Definition demo_result (device_name : string) : Result :=
  mkResult (JStr device_name) (JStr "alice") (JStr "evil.exe -x")
    (JStr "C:\tools\evil.exe") [JStr "2024-05-01T10:00:00Z"].

Definition demo_transport : string -> strdict -> strdict -> outcome Response :=
  fun _ _ _ =>
    Ret (mkResponse 200
           (Ret (JDict [("Results",
                         JList [demo_row "WIN10"; demo_row "WIN11"; demo_row "WIN10"])]))).


Definition demo_config_read (file : string) : outcome ConfigParser :=
  Ret [("default", [("tenantId", "contoso"); ("appId", "surveyor")])].

(** A credential file that spells the option names in its own way and
    keeps the secret in the section [DEFAULT]. *)
Definition demo_shared_read (file : string) : outcome ConfigParser :=
  Ret [("DEFAULT", [("appSecret", "s3cret")]);
       ("prod", [("tenantid", "contoso"); ("APPID", "surveyor")])].

(** The options that the file lists under a section name; none when
    the file has no such section. *)
Definition listed_options (section : string) (config : ConfigParser)
  : strdict :=
  match lookup section config with
  | Some options => options
  | None => []
  end.

(** *** Further vocabulary: queries, interrupts, reports *)

(** The last character of a string, if it has one. *)
Fixpoint last_char (s : string) : option ascii :=
  match s with
  | EmptyString => None
  | String c EmptyString => Some c
  | String _ s' => last_char s'
  end.

(** A string of white space only. *)
Definition all_space (s : string) : Prop :=
  Forall (fun c => isspace c = true) (list_ascii_of_string s).

(** The keys that [build_query] recognizes. *)
Definition recognized_keys : list string := ["days"; "minutes"; "hostname"; "username"].

(** The debug line of a query that [process_search] has built. *)
Definition is_query_line (e : event) : bool :=
  match e with
  | LogDebug _ => true
  | _ => false
  end.

(** How many queries an entry of the criteria asks for: one per raw
    query, one per mapped field whatever the number of its terms, none for
    a field that is not mapped. *)
Definition queries_of_entry (entry : string * Terms) : nat :=
  let '(key, ts) := entry in
  if String.eqb key "query" then
    match ts with
    | TermList raws => length raws
    | TermStr _ => 1
    end
  else
    match lookup key PARAMETER_MAPPING with
    | Some _ => 1
    | None => 0
    end.

(** [reporting m]: whatever is pending, all that [m] adds to the trace
    are reports. *)
Definition reporting {A : Type} (m : M A) : Prop :=
  forall w,
    exists evs,
      trace (snd (m w)) = (trace w ++ evs)%list
      /\ Forall (fun e => is_report e = true) evs.

(** [counts_down m]: started with an interrupt pending, [m] either ends
    in it or returns with it still pending, no further away than
    before. *)
Definition counts_down {A : Type} (m : M A) : Prop :=
  forall n t h,
    match m (mkWorld (Some n) t h) with
    | (Ret _, w') => exists n', sigint w' = Some n' /\ n' <= n
    | (Raise e, _) => e = KeyboardInterrupt
    end.

(** *** Further vocabulary: the executor *)

(** The diagnostics of the executor. *)
Definition is_diagnostic (e : event) : bool :=
  match e with
  | Echo _ _ | LogException _ => true
  | _ => false
  end.

(** [silent m]: with nothing pending, [m] reports nothing, however it
    ends. *)
Definition silent {A : Type} (m : M A) : Prop :=
  forall t h, exists o h', m (mkWorld None t h) = (o, mkWorld None t h').

(** The rows that the executor reads from a response: the body decoded,
    its member [Results], and what iterating over that gives. *)
Definition response_rows (response : Response) : outcome (list json) :=
  match response_json response with
  | Ret body =>
      match getitem body "Results" with
      | Ret results => iter_json results
      | Raise e => Raise e
      end
  | Raise e => Raise e
  end.

(** [keeps_all P ref m]: if all members of the set behind [ref] satisfy
    [P] before [m], they all do after it, however [m] ends. *)
Definition keeps_all {A : Type} (P : Result -> Prop) (ref : nat) (m : M A) : Prop :=
  forall w,
    Forall P (nth ref (heap w) []) ->
    Forall P (nth ref (heap (snd (m w))) []).

(** *** Further vocabulary: the text that the converter prints *)

(** The items of a list, one per line, quoted, a comma after each but
    the last. *)
Definition quoted_lines (items : list string) : string :=
  join ("," ++ newline) (map (fun item => "      " ++ dquote ++ item ++ dquote) items).

(** A member of an entry: its name and the list of its items. *)
Definition list_block (name : string) (items : list string) : string :=
  "    " ++ dquote ++ name ++ dquote ++ ": [" ++ newline
  ++ quoted_lines items ++ newline ++ "    ]".

(** The process names of a row: the pieces of the cell between commas,
    without their double quotes; none when the cell holds no text. *)
Definition process_names (row : Row) : option (list string) :=
  match Executables row with
  | Some (String _ _ as executables) =>
      Some (map (str_remove "034"%char) (str_split ","%char executables))
  | _ => None
  end.

(** The domains of a row: of each piece of the cell between commas, what
    comes before the first slash; none when the cell holds no text. *)
Definition domain_names (row : Row) : option (list string) :=
  match Domain row with
  | Some (String _ _ as domains) =>
      Some (map (fun domain => hd "" (str_split "/"%char domain))
              (str_split ","%char domains))
  | _ => None
  end.

(** The entry of a row, as the script writes it.  A row with neither
    executables nor domains has no opening brace: the script cuts it. *)
Definition entry_text (row : Row) : string :=
  "  " ++ dquote ++ Software row ++ dquote ++ ": "
  ++ match process_names row, domain_names row with
     | Some ps, Some ds =>
         "{" ++ newline ++ list_block "process_name" ps ++ "," ++ newline
         ++ list_block "domain" ds ++ newline
     | Some ps, None => "{" ++ newline ++ list_block "process_name" ps ++ newline
     | None, Some ds => "{" ++ newline ++ list_block "domain" ds ++ newline
     | None, None => newline
     end
  ++ "  }".

(** Whether a character occurs in a string. *)
Fixpoint occurs (c : ascii) (s : string) : bool :=
  match s with
  | EmptyString => false
  | String x s' => Ascii.eqb x c || occurs c s'
  end.

(** An entry of the printed text, read back: the name of the software
    and the items listed under [process_name] and under [domain], where
    the entry has such a member. *)
Record Entry : Type := mkEntry {
  software : string;
  processes : option (list string);
  domains : option (list string)
}.

(** The text of an entry with the given items. *)
Definition entry_of (entry : Entry) : string :=
  "  " ++ dquote ++ software entry ++ dquote ++ ": "
  ++ match processes entry, domains entry with
     | Some ps, Some ds =>
         "{" ++ newline ++ list_block "process_name" ps ++ "," ++ newline
         ++ list_block "domain" ds ++ newline
     | Some ps, None => "{" ++ newline ++ list_block "process_name" ps ++ newline
     | None, Some ds => "{" ++ newline ++ list_block "domain" ds ++ newline
     | None, None => newline
     end
  ++ "  }".

(** The entry that a row gives. *)
Definition entry_of_row (row : Row) : Entry :=
  mkEntry (Software row) (process_names row) (domain_names row).

(** A list of items with at least one item, none of which holds one of
    the two characters. *)
Definition clean_items (c d : ascii) (items : option (list string)) : Prop :=
  forall names,
    items = Some names ->
    names <> []
    /\ Forall (fun item => occurs c item = false /\ occurs d item = false) names.

(* ===================================================================== *)
(** ** Strings *)
(* ===================================================================== *)

Lemma append_assoc (a b c : string) : (a ++ b) ++ c = a ++ (b ++ c).
Proof.
  induction a as [|x a IH]; simpl; [reflexivity | now rewrite IH].
Qed.

Lemma append_nil_r (a : string) : a ++ "" = a.
Proof.
  induction a as [|x a IH]; simpl; [reflexivity | now rewrite IH].
Qed.

Lemma append_eq_nil (a b : string) : a ++ b = "" -> b = "".
Proof.
  destruct a; simpl; [trivial | discriminate].
Qed.

(** A string that [rstrip] leaves alone keeps protecting what is put
    before it. *)
Lemma rstrip_append_fixed (s t : string) :
  t <> "" -> rstrip t = t -> rstrip (s ++ t) = s ++ t.
Proof.
  intros Hne Hfix.
  induction s as [|c s IH]; simpl; [exact Hfix|].
  rewrite IH.
  destruct (s ++ t) eqn:E; [|reflexivity].
  apply append_eq_nil in E. contradiction.
Qed.

Lemma iter_set_nil `{Runtime} : iter_set [] = [].
Proof.
  apply Permutation_nil. apply Permutation_sym. apply iter_set_perm.
Qed.

(* ===================================================================== *)
(** ** Runs that the user does not interrupt *)
(* ===================================================================== *)

Lemma quietly_ret {A : Type} (a : A) : quietly (ret a) a [].
Proof.
  intros t h. simpl. now rewrite app_nil_r.
Qed.

Lemma quietly_bind {A B : Type} (m : M A) (k : A -> M B) a b e1 e2 :
  quietly m a e1 -> quietly (k a) b e2 -> quietly (bind m k) b (e1 ++ e2)%list.
Proof.
  intros Hm Hk t h. simpl. rewrite Hm, Hk. now rewrite app_assoc.
Qed.

Lemma quietly_tick : quietly tick tt [].
Proof.
  intros t h. unfold tick. simpl. now rewrite app_nil_r.
Qed.

Lemma quietly_call (e : event) : quietly (call e) tt [e].
Proof.
  intros t h. reflexivity.
Qed.

Lemma quietly_for_in_nil {A S : Type} (acc : S) (body : S -> A -> M S) :
  quietly (for_in [] acc body) acc [].
Proof.
  intros t h. simpl. unfold tick. simpl. now rewrite app_nil_r.
Qed.

Lemma quietly_for_in_cons {A S : Type} (x : A) xs (acc acc' acc'' : S) body e1 e2 :
  quietly (body acc x) acc' e1 ->
  quietly (for_in xs acc' body) acc'' e2 ->
  quietly (for_in (x :: xs) acc body) acc'' (e1 ++ e2)%list.
Proof.
  intros H1 H2.
  change (for_in (x :: xs) acc body)
    with (tick ;; acc' <- body acc x ;; for_in xs acc' body).
  change (e1 ++ e2)%list with ([] ++ (e1 ++ e2))%list.
  apply quietly_bind with (a := tt); [apply quietly_tick|].
  now apply quietly_bind with (a := acc').
Qed.

Lemma quietly_for_in {A S : Type} (xs : list A) (body : S -> A -> M S)
    (step : S -> A -> S) (report : A -> list event) :
  (forall acc x, quietly (body acc x) (step acc x) (report x)) ->
  forall acc, quietly (for_in xs acc body) (fold_left step xs acc) (flat_map report xs).
Proof.
  intros Hbody.
  induction xs as [|x xs IH]; intros acc; simpl fold_left; simpl flat_map.
  - apply quietly_for_in_nil.
  - eapply quietly_for_in_cons; [apply Hbody | apply IH].
Qed.

Lemma quietly_for_each {A : Type} (xs : list A) (body : A -> M unit)
    (report : A -> list event) :
  (forall x, quietly (body x) tt (report x)) ->
  quietly (for_each xs body) tt (flat_map report xs).
Proof.
  intros Hbody. unfold for_each.
  assert (H := @quietly_for_in A unit xs (fun _ x => body x) (fun _ _ => tt) report
                 (fun _ x => Hbody x) tt).
  replace (fold_left (fun _ _ => tt) xs tt) with tt in H; [exact H|].
  clear. induction xs; simpl; auto.
Qed.

(* ===================================================================== *)
(** ** [build_query] refines the base clause *)
(* ===================================================================== *)

Lemma concat_cons (c : string) (l : list string) :
  String.concat "" (c :: l) = c ++ String.concat "" l.
Proof.
  destruct l; simpl; [now rewrite append_nil_r | reflexivity].
Qed.

Lemma concat_app (l1 l2 : list string) :
  String.concat "" (l1 ++ l2)%list = String.concat "" l1 ++ String.concat "" l2.
Proof.
  induction l1 as [|c l1 IH]; [reflexivity|].
  change ((c :: l1) ++ l2)%list with (c :: (l1 ++ l2))%list.
  now rewrite !concat_cons, IH, append_assoc.
Qed.

Lemma base_clause_unrecognized (key : string) (v : Value) :
  String.eqb key "days" = false -> String.eqb key "minutes" = false ->
  String.eqb key "hostname" = false -> String.eqb key "username" = false ->
  base_clause key v = None.
Proof.
  intros H1 H2 H3 H4. unfold base_clause, clause_forms, lookup.
  rewrite (String.eqb_sym "days"), H1, (String.eqb_sym "minutes"), H2,
    (String.eqb_sym "hostname"), H3, (String.eqb_sym "username"), H4.
  reflexivity.
Qed.

Lemma base_warnings_cons key v (filters : BaseFilters) :
  base_warnings ((key, v) :: filters)
  = (base_warnings [(key, v)] ++ base_warnings filters)%list.
Proof.
  unfold base_warnings. simpl. now rewrite app_nil_r.
Qed.

Lemma base_clauses_cons key v (filters : BaseFilters) :
  base_clauses ((key, v) :: filters)
  = (base_clauses [(key, v)] ++ base_clauses filters)%list.
Proof.
  unfold base_clauses. simpl. now rewrite app_nil_r.
Qed.

(** One turn of the loop of [build_query]. *)
Lemma build_query_turn (query_base key : string) (v : Value) :
  quietly
    (if String.eqb key "days" then
       ret (query_base ++ "| where Timestamp > ago(" ++ format_value v ++ "d)")
     else if String.eqb key "minutes" then
       ret (query_base ++ "| where Timestamp > ago(" ++ format_value v ++ "m)")
     else if String.eqb key "hostname" then
       ret (query_base ++ "| where DeviceName contains " ++ dquote
            ++ format_value v ++ dquote)
     else if String.eqb key "username" then
       ret (query_base ++ "| where AccountName contains " ++ dquote
            ++ format_value v ++ dquote)
     else
       _echo ("Query filter " ++ key ++ " is not supported by product " ++ product)
             WARNING ;;
       ret query_base)
    (query_base ++ String.concat "" (base_clauses [(key, v)]))
    (base_warnings [(key, v)]).
Proof.
  unfold base_clauses, base_warnings, flat_map.
  destruct (String.eqb_spec key "days") as [->|H1];
    [apply quietly_ret|].
  destruct (String.eqb_spec key "minutes") as [->|H2];
    [apply quietly_ret|].
  destruct (String.eqb_spec key "hostname") as [->|H3];
    [apply quietly_ret|].
  destruct (String.eqb_spec key "username") as [->|H4];
    [apply quietly_ret|].
  rewrite base_clause_unrecognized by (now apply String.eqb_neq).
  simpl String.concat. rewrite append_nil_r.
  apply quietly_bind with (a := tt); [apply quietly_call | apply quietly_ret].
Qed.

Lemma build_query_quietly (filters : BaseFilters) :
  quietly (build_query filters) (base_clause_text filters) (base_warnings filters).
Proof.
  unfold build_query, base_clause_text.
  enough (G : forall acc,
             quietly (for_in filters acc
                        (fun query_base '(key, value) =>
                           if String.eqb key "days" then
                             ret (query_base ++ "| where Timestamp > ago("
                                  ++ format_value value ++ "d)")
                           else if String.eqb key "minutes" then
                             ret (query_base ++ "| where Timestamp > ago("
                                  ++ format_value value ++ "m)")
                           else if String.eqb key "hostname" then
                             ret (query_base ++ "| where DeviceName contains " ++ dquote
                                  ++ format_value value ++ dquote)
                           else if String.eqb key "username" then
                             ret (query_base ++ "| where AccountName contains " ++ dquote
                                  ++ format_value value ++ dquote)
                           else
                             _echo ("Query filter " ++ key
                                    ++ " is not supported by product " ++ product)
                                   WARNING ;;
                             ret query_base))
                     (acc ++ String.concat "" (base_clauses filters))
                     (base_warnings filters)) by exact (G "").
  induction filters as [|[key v] filters IH]; intros acc.
  - simpl String.concat. rewrite append_nil_r. apply quietly_for_in_nil.
  - rewrite base_warnings_cons, base_clauses_cons, concat_app, <- append_assoc.
    eapply quietly_for_in_cons; [apply build_query_turn | apply IH].
Qed.

(* ===================================================================== *)
(** ** [nested_process_search] refines the expander *)
(* ===================================================================== *)

Lemma process_search_quietly (tag : Tag) (base_query : BaseFilters) (query : string) :
  quietly (process_search tag base_query query) tt
    (base_warnings base_query
     ++ [query_built (rstrip (query ++ base_clause_text base_query))])%list.
Proof.
  unfold process_search.
  eapply quietly_bind; [apply build_query_quietly|].
  change [query_built (rstrip (query ++ base_clause_text base_query))]
    with ([query_built (rstrip (query ++ base_clause_text base_query))] ++ [])%list.
  eapply quietly_bind; [apply quietly_call | apply quietly_ret].
Qed.

Lemma process_search_plain (tag : Tag) (query : string) :
  quietly (process_search tag [] query) tt [query_built (rstrip query)].
Proof.
  generalize (process_search_quietly tag [] query).
  unfold base_clause_text. simpl. now rewrite append_nil_r.
Qed.

Lemma flat_map_singleton {A B : Type} (f : A -> B) (l : list A) :
  flat_map (fun x => [f x]) l = map f l.
Proof.
  induction l as [|x l IH]; simpl; [reflexivity | now rewrite IH].
Qed.

(** Both sides are the same characters: reassociate, then let the
    literals compute. *)
Ltac same_string := repeat rewrite append_assoc; cbn [append]; reflexivity.

Lemma nested_process_search_try_quietly (tag : Tag) (criteria : SearchCriteria)
    (base_query : BaseFilters) :
  quietly (nested_process_search_try tag criteria base_query (base_clause_text base_query))
    tt (expand base_query criteria).
Proof.
  unfold nested_process_search_try, expand.
  apply quietly_for_each. intros [search_field ts]. unfold expand_entry.
  destruct (String.eqb search_field "query").
  - destruct ts as [l|s].
    + rewrite <- flat_map_singleton.
      apply quietly_for_each. intros query_entry. apply process_search_plain.
    + apply process_search_quietly.
  - destruct (lookup search_field PARAMETER_MAPPING) as [m|].
    + cbv zeta.
      match goal with
      | |- quietly (process_search _ _ ?q) _ _ =>
          replace (membership_query m (iter_terms ts) (base_clause_text base_query))
            with q; [apply process_search_plain|]
      end.
      unfold membership_query, quoted_terms. same_string.
    + apply quietly_call.
Qed.

Lemma nth_middle_nil (h : list pyset) : nth (length h) (h ++ [[]])%list [] = [].
Proof.
  induction h as [|s h IH]; simpl; [reflexivity | exact IH].
Qed.

(** An uninterrupted run of [nested_process_search]: the warnings about
    the base filters, what the entries make it do, and the call of the
    sink with the empty list. *)
Lemma nested_process_search_run `{Runtime} (tag : Tag) (criteria : SearchCriteria)
    (base_query : BaseFilters) (t : list event) (h : list pyset) :
  nested_process_search tag criteria base_query (mkWorld None t h)
  = (Ret tt,
     mkWorld None
       (t ++ base_warnings base_query ++ expand base_query criteria
          ++ [AddResults [] tag])%list
       (h ++ [[]])%list).
Proof.
  unfold nested_process_search, new_set, try_except_KeyboardInterrupt. simpl.
  rewrite build_query_quietly.
  rewrite nested_process_search_try_quietly.
  unfold list_of_set, _add_results, call, tick. simpl.
  rewrite nth_middle_nil, iter_set_nil.
  now rewrite <- !app_assoc.
Qed.

(* ===================================================================== *)
(** ** Properties of the query translator *)
(* ===================================================================== *)

Lemma base_warnings_report (filters : BaseFilters) :
  Forall (fun e => is_report e = true) (base_warnings filters).
Proof.
  unfold base_warnings. apply Forall_flat_map. apply Forall_forall.
  intros [key v] _. destruct (base_clause key v); repeat constructor.
Qed.

Lemma expand_report (base_query : BaseFilters) (criteria : SearchCriteria) :
  Forall (fun e => is_report e = true) (expand base_query criteria).
Proof.
  unfold expand. apply Forall_flat_map. apply Forall_forall.
  intros [key ts] _. unfold expand_entry.
  destruct (String.eqb key "query").
  - destruct ts as [raws|raw].
    + apply Forall_map. apply Forall_forall. reflexivity.
    + apply Forall_app. split; [apply base_warnings_report | repeat constructor].
  - destruct (lookup key PARAMETER_MAPPING); repeat constructor.
Qed.

(** Every entry of the table is reached by a key other than [query] and
    ends in a column name, which [rstrip] leaves alone. *)
Lemma PARAMETER_MAPPING_entry (search_field : string) (m : mapping) :
  lookup search_field PARAMETER_MAPPING = Some m ->
  String.eqb search_field "query" = false
  /\ rstrip (" | project " ++ join ", " (projections m))
     = " | project " ++ join ", " (projections m)
  /\ exists c1 c2 c3 c4, projections m = [c1; c2; c3; c4].
Proof.
  unfold PARAMETER_MAPPING. cbn [lookup].
  repeat match goal with
         | |- (if String.eqb ?k search_field then _ else _) = _ -> _ =>
             destruct (String.eqb_spec k search_field) as [<-|_];
             [ intros [= <-]; repeat split; repeat eexists | ]
         end.
  discriminate.
Qed.

(** C1, as the code has it.  For the criteria
    [{"process_name": ["evil.exe"]}] and the base filters
    [{"days": 7, "hostname": "WIN10"}], [nested_process_search] builds
    exactly one query, the text of the scenario (two spaces after the
    closing parenthesis, none between the two base clauses), and
    [process_search] writes it to the debug log.  The query is not
    submitted: the run posts nothing to the transport, calls the sink
    once with the empty list, and does nothing else. *)
Theorem process_name_scenario `{Runtime} (tag : Tag) :
  nested_process_search tag
    [("process_name", TermList ["evil.exe"])]
    [("days", VInt 7); ("hostname", VStr "WIN10")]
    (start None)
  = (Ret tt,
     mkWorld None
       [ LogDebug
           ("Query: DeviceProcessEvents | where FolderPath has_any ('evil.exe')"
            ++ "  | where Timestamp > ago(7d)| where DeviceName contains "
            ++ dquote ++ "WIN10" ++ dquote
            ++ " | project DeviceName, AccountName, FolderPath, ProcessCommandLine");
         AddResults [] tag ]
       [[]]).
Proof.
  unfold start. rewrite nested_process_search_run. reflexivity.
Qed.

(** The claim C1 fails as it stands: on the criteria and the base
    filters of the scenario the run submits no query at all.  Nothing is
    posted to the transport, since the call of [_post_advanced_query] in
    [process_search] is commented out. *)
Lemma process_name_query_is_not_submitted :
  ~ (exists url data headers,
       In (Post url data headers)
          (trace (snd (nested_process_search (runtime := sample_runtime) "demo"
                         [("process_name", TermList ["evil.exe"])]
                         [("days", VInt 7); ("hostname", VStr "WIN10")]
                         (start None))))).
Proof.
  intros (url & data & headers & Hin). cbn in Hin.
  destruct Hin as [Hin|[Hin|[]]]; discriminate Hin.
Qed.

(** C5, as the code has it.  For the criteria [{"query": [raw]}] with
    [raw] the query of the scenario and no base filters, exactly one
    query is built, and it is [raw] unchanged; [process_search] writes it
    to the debug log.  The query is not executed: the run posts nothing
    to the transport and calls the sink once with the empty list. *)
Theorem raw_query_scenario `{Runtime} (tag : Tag) :
  nested_process_search tag
    [("query", TermList ["DeviceEvents | where ActionType == 'AntivirusDetection'"])]
    []
    (start None)
  = (Ret tt,
     mkWorld None
       [ LogDebug "Query: DeviceEvents | where ActionType == 'AntivirusDetection'";
         AddResults [] tag ]
       [[]]).
Proof.
  unfold start. rewrite nested_process_search_run. reflexivity.
Qed.

(** The claim C5 fails as it stands: on the raw query of the scenario
    the run executes no query.  Nothing is posted to the transport, since
    the call of [_post_advanced_query] in [process_search] is commented
    out. *)
Lemma raw_query_is_not_executed :
  ~ (exists url data headers,
       In (Post url data headers)
          (trace (snd (nested_process_search (runtime := sample_runtime) "demo"
                         [("query",
                           TermList ["DeviceEvents | where ActionType == 'AntivirusDetection'"])]
                         []
                         (start None))))).
Proof.
  intros (url & data & headers & Hin). cbn in Hin.
  destruct Hin as [Hin|[Hin|[]]]; discriminate Hin.
Qed.

(** C2. [build_query] refines the base clause of the specification: one
    clause for each recognized key, of the form given for that key, put one
    after the other in iteration order; a warning and no clause for any
    other key; the empty string for no filter. *)
Theorem build_query_clause_per_key (filters : BaseFilters) :
  quietly (build_query filters)
    (String.concat "" (base_clauses filters)) (base_warnings filters)
  /\ (forall v, base_clause "days" v
                = Some ("| where Timestamp > ago(" ++ format_value v ++ "d)"))
  /\ (forall v, base_clause "minutes" v
                = Some ("| where Timestamp > ago(" ++ format_value v ++ "m)"))
  /\ (forall v, base_clause "hostname" v
                = Some ("| where DeviceName contains " ++ dquote
                        ++ format_value v ++ dquote))
  /\ (forall v, base_clause "username" v
                = Some ("| where AccountName contains " ++ dquote
                        ++ format_value v ++ dquote))
  /\ (forall key v,
        ~ In key ["days"; "minutes"; "hostname"; "username"] ->
        base_clause key v = None)
  /\ quietly (build_query []) "" [].
Proof.
  split; [apply build_query_quietly|].
  repeat (split; [reflexivity|]).
  split; [|apply (build_query_quietly [])].
  intros key v Hkey. apply base_clause_unrecognized;
    apply String.eqb_neq; intros ->; apply Hkey; simpl; tauto.
Qed.

Lemma build_query_clause_per_key_witness :
  ~ In "os" ["days"; "minutes"; "hostname"; "username"]
  /\ base_clause "os" (VStr "linux") = None
  /\ build_query [("days", VInt 7); ("os", VStr "linux"); ("username", VStr "bob")]
       (start None)
     = (Ret ("| where Timestamp > ago(7d)| where AccountName contains "
             ++ dquote ++ "bob" ++ dquote),
        mkWorld None [Echo "Query filter os is not supported by product dfe" WARNING] []).
Proof.
  assert (Hos : ~ In "os" ["days"; "minutes"; "hostname"; "username"]).
  { intros [H|[H|[H|[H|[]]]]]; discriminate H. }
  split; [exact Hos|]. split.
  - exact (proj1 (proj2 (proj2 (proj2 (proj2 (proj2
             (build_query_clause_per_key [])))))) "os" (VStr "linux") Hos).
  - exact (proj1 (build_query_clause_per_key
                    [("days", VInt 7); ("os", VStr "linux"); ("username", VStr "bob")])
             [] []).
Defined.

(** C3. An entry of the criteria whose field is not in
    [PARAMETER_MAPPING] (and is not the reserved key [query]) adds one
    warning to what the run does and nothing else: the entries before it
    and after it are processed as without it, and no query is built for it.
    For the criteria [{"bogus_field": ["x"]}] the run reports one warning,
    builds no query and calls the sink once, with the empty list. *)
Theorem unmapped_field_is_skipped `{Runtime} (tag : Tag)
    (before after : SearchCriteria) (search_field : string) (ts : Terms)
    (base_query : BaseFilters) (t : list event) (h : list pyset) :
  search_field <> "query" ->
  lookup search_field PARAMETER_MAPPING = None ->
  (exists done todo,
     nested_process_search tag before base_query (mkWorld None t h)
     = (Ret tt,
        mkWorld None (t ++ done ++ [AddResults [] tag])%list (h ++ [[]])%list)
     /\ nested_process_search tag (before ++ after)%list base_query (mkWorld None t h)
        = (Ret tt,
           mkWorld None (t ++ done ++ todo ++ [AddResults [] tag])%list
             (h ++ [[]])%list)
     /\ nested_process_search tag (before ++ (search_field, ts) :: after)%list
          base_query (mkWorld None t h)
        = (Ret tt,
           mkWorld None
             (t ++ done
                ++ [Echo ("Query filter " ++ search_field
                          ++ " is not supported by product dfe") WARNING]
                ++ todo ++ [AddResults [] tag])%list
             (h ++ [[]])%list))
  /\ nested_process_search tag [("bogus_field", TermList ["x"])] [] (start None)
     = (Ret tt,
        mkWorld None
          [ Echo "Query filter bogus_field is not supported by product dfe" WARNING;
            AddResults [] tag ]
          [[]]).
Proof.
  intros Hquery Hmap. split.
  - exists (base_warnings base_query ++ expand base_query before)%list,
      (expand base_query after).
    rewrite !nested_process_search_run. unfold expand.
    rewrite !flat_map_app. cbn [flat_map expand_entry].
    apply String.eqb_neq in Hquery. rewrite Hquery, Hmap.
    repeat split; now rewrite <- ?app_assoc.
  - unfold start. rewrite nested_process_search_run. reflexivity.
Qed.

Lemma unmapped_field_is_skipped_witness :
  "registry" <> "query"
  /\ lookup "registry" PARAMETER_MAPPING = None
  /\ nested_process_search (runtime := sample_runtime) "demo"
       [("bogus_field", TermList ["x"])] [] (start None)
     = (Ret tt,
        mkWorld None
          [ Echo "Query filter bogus_field is not supported by product dfe" WARNING;
            AddResults [] "demo" ]
          [[]]).
Proof.
  split; [discriminate|]. split; [reflexivity|].
  apply (@unmapped_field_is_skipped sample_runtime "demo"
           [("md5", TermList ["d41d8cd98f00b204e9800998ecf8427e"])]
           [("domain", TermList ["example.org"])]
           "registry" (TermList ["HKLM"]) [("days", VInt 1)] [] []);
    [discriminate | reflexivity].
Defined.

Lemma quoted_terms_cons (x : string) (xs : list string) :
  xs <> [] ->
  quoted_terms (x :: xs) = "'" ++ x ++ "'" ++ ", " ++ quoted_terms xs.
Proof.
  intros Hxs. unfold quoted_terms, join.
  destruct xs as [|y ys]; [contradiction|].
  cbn [map String.concat]. same_string.
Qed.

(** Every term sits in the list between single quotes, with [", "] or an
    end of the list on either side. *)
Lemma quoted_terms_occurrence (ts : list string) (term : string) :
  In term ts ->
  exists pre post,
    quoted_terms ts = pre ++ "'" ++ term ++ "'" ++ post
    /\ (pre = "" \/ exists p, pre = p ++ ", ")
    /\ (post = "" \/ exists q, post = ", " ++ q).
Proof.
  induction ts as [|x xs IH]; [intros []|].
  intros [->|Hin].
  - exists "". destruct xs as [|y ys].
    + exists "". split; [|split; left; reflexivity].
      unfold quoted_terms, join. cbn [map String.concat]. same_string.
    + exists (", " ++ quoted_terms (y :: ys)).
      split; [|split; [left; reflexivity | right; eexists; reflexivity]].
      rewrite quoted_terms_cons by discriminate. same_string.
  - destruct (IH Hin) as (pre & post & Heq & Hpre & Hpost).
    exists (("'" ++ x ++ "'" ++ ", ") ++ pre), post.
    split; [|split; [right | exact Hpost]].
    + rewrite quoted_terms_cons by (intros ->; contradiction).
      rewrite Heq. same_string.
    + destruct Hpre as [->|[p ->]].
      * exists ("'" ++ x ++ "'"). rewrite append_nil_r. same_string.
      * exists (("'" ++ x ++ "'" ++ ", ") ++ p). same_string.
Qed.

(** C4. For a field of [PARAMETER_MAPPING] and a non-empty list of terms,
    the one query built is the table, the membership clause over the
    quoted terms, the joins, the base clause and the projection of the
    field's columns; every term occurs in the clause between single
    quotes, separated from its neighbours by [", "]; and the query ends
    with [| project] and the four columns of the field in their declared
    order. *)
Theorem membership_query_shape `{Runtime} (tag : Tag) (search_field : string)
    (m : mapping) (ts : list string) (base_query : BaseFilters)
    (t : list event) (h : list pyset) :
  lookup search_field PARAMETER_MAPPING = Some m ->
  ts <> [] ->
  let all_terms := join ", " (map (fun term => "'" ++ term ++ "'") ts) in
  let query :=
    table m ++ " | where " ++ field m ++ " has_any (" ++ all_terms ++ ") "
    ++ match additional m with Some joins => joins | None => "" end
    ++ " " ++ base_clause_text base_query
    ++ " | project " ++ join ", " (projections m) in
  nested_process_search tag [(search_field, TermList ts)] base_query (mkWorld None t h)
  = (Ret tt,
     mkWorld None
       (t ++ base_warnings base_query
          ++ [LogDebug ("Query: " ++ query); AddResults [] tag])%list
       (h ++ [[]])%list)
  /\ (forall term, In term ts ->
        exists pre post,
          all_terms = pre ++ "'" ++ term ++ "'" ++ post
          /\ (pre = "" \/ exists p, pre = p ++ ", ")
          /\ (post = "" \/ exists q, post = ", " ++ q))
  /\ (exists c1 c2 c3 c4 front,
        projections m = [c1; c2; c3; c4]
        /\ query = front ++ "| project " ++ c1 ++ ", " ++ c2 ++ ", " ++ c3 ++ ", " ++ c4).
Proof.
  intros Hmap Hts all_terms query.
  destruct (PARAMETER_MAPPING_entry _ Hmap) as (Hquery & Hfixed & c1 & c2 & c3 & c4 & Hcols).
  split; [|split].
  - rewrite nested_process_search_run. unfold expand.
    cbn [flat_map expand_entry]. rewrite Hquery, Hmap.
    replace (rstrip (membership_query m (iter_terms (TermList ts))
                       (base_clause_text base_query))) with query; [reflexivity|].
    unfold membership_query, quoted_terms, query, all_terms. cbn [iter_terms].
    set (tail := " | project " ++ join ", " (projections m)) in *.
    repeat rewrite <- append_assoc.
    rewrite rstrip_append_fixed; [reflexivity | | exact Hfixed].
    unfold tail. discriminate.
  - intros term Hin. apply (quoted_terms_occurrence ts term Hin).
  - exists c1, c2, c3, c4.
    eexists (table m ++ " | where " ++ field m ++ " has_any (" ++ all_terms ++ ") "
             ++ match additional m with Some joins => joins | None => "" end
             ++ " " ++ base_clause_text base_query ++ " ").
    split; [exact Hcols|].
    unfold query. rewrite Hcols. unfold join. cbn [String.concat]. same_string.
Qed.

Lemma membership_query_shape_witness :
  lookup "digsig_publisher" PARAMETER_MAPPING
  = Some (mkMapping "DeviceFileCertificateInfo" "Signer"
            (Some "| join kind=inner DeviceProcessEvents on $left.SHA1 == $right.SHA1")
            ["DeviceName"; "AccountName"; "FolderPath"; "ProcessCommandLine"])
  /\ ["Contoso"; "Fabrikam"] <> []
  /\ nested_process_search (runtime := sample_runtime) "demo"
       [("digsig_publisher", TermList ["Contoso"; "Fabrikam"])]
       [("minutes", VInt 30)] (start None)
     = (Ret tt,
        mkWorld None
          [ LogDebug
              ("Query: DeviceFileCertificateInfo | where Signer has_any "
               ++ "('Contoso', 'Fabrikam') "
               ++ "| join kind=inner DeviceProcessEvents on $left.SHA1 == $right.SHA1"
               ++ " | where Timestamp > ago(30m)"
               ++ " | project DeviceName, AccountName, FolderPath, ProcessCommandLine");
            AddResults [] "demo" ]
          [[]]).
Proof.
  split; [reflexivity|]. split; [discriminate|].
  refine (proj1 (@membership_query_shape sample_runtime "demo" "digsig_publisher"
                   (mkMapping "DeviceFileCertificateInfo" "Signer"
                      (Some "| join kind=inner DeviceProcessEvents on $left.SHA1 == $right.SHA1")
                      ["DeviceName"; "AccountName"; "FolderPath"; "ProcessCommandLine"])
                   ["Contoso"; "Fabrikam"] [("minutes", VInt 30)] [] [] _ _));
    [reflexivity | discriminate].
Defined.

(** C10. Whatever the tag, the criteria and the base filters, an
    uninterrupted run of [nested_process_search] only reports (warnings
    and the debug line of each query built) and then calls the sink once,
    with the empty list: nothing is ever added to [results], and
    [process_search] neither posts the query nor calls the sink. *)
Theorem sink_receives_nothing `{Runtime} (tag : Tag) (criteria : SearchCriteria)
    (base_query : BaseFilters) (t : list event) (h : list pyset) :
  (exists reports,
     Forall (fun e => is_report e = true) reports
     /\ nested_process_search tag criteria base_query (mkWorld None t h)
        = (Ret tt,
           mkWorld None (t ++ reports ++ [AddResults [] tag])%list (h ++ [[]])%list))
  /\ (forall query,
        exists reports,
          Forall (fun e => is_report e = true) reports
          /\ process_search tag base_query query (mkWorld None t h)
             = (Ret tt, mkWorld None (t ++ reports)%list h)).
Proof.
  split.
  - exists (base_warnings base_query ++ expand base_query criteria)%list. split.
    + apply Forall_app. split; [apply base_warnings_report | apply expand_report].
    + rewrite nested_process_search_run. now rewrite <- app_assoc.
  - intros query. eexists. split; [|apply process_search_quietly].
    apply Forall_app. split; [apply base_warnings_report | repeat constructor].
Qed.

(* ===================================================================== *)
(** ** Runs that the user may interrupt *)
(* ===================================================================== *)

Lemma orderly_ret {A : Type} (a : A) : orderly (ret a).
Proof.
  intros w. split; [reflexivity | discriminate].
Qed.

Lemma orderly_tick : orderly tick.
Proof.
  intros w. unfold tick. destruct (sigint w) as [[|n]|]; simpl;
    (split; [reflexivity|]); intros e [=]; subst; auto.
Qed.

Lemma orderly_bind {A B : Type} (m : M A) (k : A -> M B) :
  orderly m -> (forall a, orderly (k a)) -> orderly (bind m k).
Proof.
  intros Hm Hk w. simpl. specialize (Hm w).
  destruct (m w) as [[a|e] w'] eqn:E; simpl in *.
  - destruct Hm as [Hheap _]. specialize (Hk a w').
    destruct (k a w') as [o w'']; simpl in *.
    destruct Hk as [Hheap' Hraise]. split; [congruence | exact Hraise].
  - destruct Hm as [Hheap Hraise]. split; [exact Hheap|].
    intros x [= <-]. now apply Hraise.
Qed.

Lemma orderly_call (e : event) : orderly (call e).
Proof.
  unfold call. apply orderly_bind; [apply orderly_tick|].
  intros _ w. split; [reflexivity | discriminate].
Qed.

Lemma orderly_for_in {A S : Type} (xs : list A) (body : S -> A -> M S) :
  (forall acc x, orderly (body acc x)) -> forall acc, orderly (for_in xs acc body).
Proof.
  intros Hbody. induction xs as [|x xs IH]; intros acc; cbn [for_in].
  - apply orderly_bind; [apply orderly_tick | intros; apply orderly_ret].
  - apply orderly_bind; [apply orderly_tick | intros _].
    apply orderly_bind; [apply Hbody | apply IH].
Qed.

Lemma orderly_for_each {A : Type} (xs : list A) (body : A -> M unit) :
  (forall x, orderly (body x)) -> orderly (for_each xs body).
Proof.
  intros Hbody. unfold for_each. apply orderly_for_in. intros _ x. apply Hbody.
Qed.

Create HintDb orderly.
#[export] Hint Resolve orderly_ret orderly_tick orderly_call : orderly.

Lemma orderly_build_query (filters : BaseFilters) : orderly (build_query filters).
Proof.
  unfold build_query. apply orderly_for_in. intros acc [key v].
  repeat match goal with
         | |- orderly (if ?b then _ else _) => destruct b
         end; auto with orderly.
  apply orderly_bind; [apply orderly_call | auto with orderly].
Qed.

Lemma orderly_process_search (tag : Tag) (base_query : BaseFilters) (query : string) :
  orderly (process_search tag base_query query).
Proof.
  unfold process_search. apply orderly_bind; [apply orderly_build_query | intros clause].
  apply orderly_bind; [apply orderly_call | auto with orderly].
Qed.

Lemma orderly_nested_process_search_try (tag : Tag) (criteria : SearchCriteria)
    (base_query : BaseFilters) (query_base : string) :
  orderly (nested_process_search_try tag criteria base_query query_base).
Proof.
  unfold nested_process_search_try. apply orderly_for_each.
  intros [search_field ts].
  destruct (String.eqb search_field "query").
  - destruct ts as [l|s]; [|apply orderly_process_search].
    apply orderly_for_each. intros query_entry. apply orderly_process_search.
  - cbv zeta. destruct (lookup search_field PARAMETER_MAPPING).
    + apply orderly_process_search.
    + apply orderly_call.
Qed.

(** A call lets out nothing but the interrupt. *)
Lemma call_raise (e : event) (w : world) (x : exn) :
  fst (call e w) = Raise x -> x = KeyboardInterrupt.
Proof.
  intros Hx. now apply (orderly_call e w).
Qed.

(** With nothing pending, a call happens. *)
Lemma call_quiet (e : event) (t : list event) (h : list pyset) :
  call e (mkWorld None t h) = (Ret tt, mkWorld None (t ++ [e])%list h).
Proof.
  reflexivity.
Qed.

(** No exception leaves [nested_process_search] but the user's interrupt
    (when it lands outside the [try]). *)
Lemma nested_process_search_raise `{Runtime} (tag : Tag) (criteria : SearchCriteria)
    (base_query : BaseFilters) (w : world) (e : exn) :
  fst (nested_process_search tag criteria base_query w) = Raise e ->
  e = KeyboardInterrupt.
Proof.
  unfold nested_process_search, new_set, try_except_KeyboardInterrupt. simpl.
  set (w0 := mkWorld (sigint w) (trace w) (heap w ++ [[]])%list).
  destruct (orderly_build_query base_query w0) as [_ Hb].
  destruct (build_query base_query w0) as [[query_base|x] w1]; simpl in *;
    [|intros [= <-]; now apply Hb].
  destruct (orderly_nested_process_search_try tag criteria base_query query_base w1)
    as [_ Ht].
  destruct (nested_process_search_try tag criteria base_query query_base w1)
    as [[[]|x] w2]; simpl in *.
  - unfold list_of_set, _add_results. simpl.
    match goal with
    | |- context [call ?ev ?w] =>
        pose proof (call_raise ev w) as Hc; destruct (call ev w) as [[[]|y] w3]
    end; simpl in *; [discriminate|].
    intros [= <-]. now apply Hc.
  - destruct (Ht x eq_refl) as [-> Hsig]. simpl.
    destruct w2 as [sg t2 h2]. simpl in Hsig. subst sg.
    unfold list_of_set, _add_results, _echo. simpl. discriminate.
Qed.

(* ===================================================================== *)
(** ** Sets of results and runs of the executor *)
(* ===================================================================== *)

Lemma py_eqb_sym (a b : json) : py_eqb a b = py_eqb b a.
Proof.
  destruct a, b; simpl; try reflexivity.
  - now destruct b, b0.
  - apply Z.eqb_sym.
  - apply String.eqb_sym.
Qed.

Lemma py_eqb_refl (a : json) : hashable a = true -> py_eqb a a = true.
Proof.
  destruct a; simpl; try discriminate; intros _.
  - reflexivity.
  - now destruct b.
  - apply Z.eqb_refl.
  - apply String.eqb_refl.
Qed.

Lemma py_eqb_list_sym (l m : list json) : py_eqb_list l m = py_eqb_list m l.
Proof.
  revert m. induction l as [|a l IH]; intros [|b m]; simpl; try reflexivity.
  now rewrite py_eqb_sym, IH.
Qed.

Lemma py_eqb_list_refl (l : list json) :
  forallb hashable l = true -> py_eqb_list l l = true.
Proof.
  induction l as [|a l IH]; simpl; [reflexivity|].
  intros [Ha Hl]%andb_prop. now rewrite py_eqb_refl, IH.
Qed.

Lemma Result_eqb_sym (r s : Result) : Result_eqb r s = Result_eqb s r.
Proof.
  unfold Result_eqb.
  now rewrite (py_eqb_sym (device r)), (py_eqb_sym (account r)),
    (py_eqb_sym (command_line r)), (py_eqb_sym (path r)),
    (py_eqb_list_sym (other_data r)).
Qed.

Lemma Result_eqb_refl (r : Result) : Result_hashable r = true -> Result_eqb r r = true.
Proof.
  unfold Result_hashable, Result_eqb.
  intros [[[[Hd Ha]%andb_prop Hc]%andb_prop Hp]%andb_prop Ho]%andb_prop.
  now rewrite !py_eqb_refl, py_eqb_list_refl.
Qed.

Lemma pairwise_distinct_snoc (s : pyset) (r : Result) :
  pairwise_distinct s -> existsb (Result_eqb r) s = false ->
  pairwise_distinct (s ++ [r])%list.
Proof.
  induction s as [|x s IH]; simpl; [intros _ _; split; constructor|].
  intros [Hx Hs] [Hrx Hrs]%orb_false_elim. split.
  - apply Forall_app. split; [exact Hx | repeat constructor; exact Hrx].
  - now apply IH.
Qed.

Lemma pairwise_distinct_insert (s : pyset) (r : Result) :
  pairwise_distinct s -> pairwise_distinct (set_insert r s).
Proof.
  intros Hs. unfold set_insert.
  destruct (existsb (Result_eqb r) s) eqn:E; [exact Hs|].
  now apply pairwise_distinct_snoc.
Qed.

Lemma pairwise_distinct_collect (rs : list Result) (s : pyset) :
  pairwise_distinct s -> pairwise_distinct (collect rs s).
Proof.
  revert s. induction rs as [|r rs IH]; intros s Hs; simpl; [exact Hs|].
  apply IH. now apply pairwise_distinct_insert.
Qed.

Lemma pairwise_distinct_Permutation (l m : list Result) :
  Permutation l m -> pairwise_distinct l -> pairwise_distinct m.
Proof.
  induction 1 as [|x l m Hlm IH|x y l|l m n _ IH1 _ IH2]; simpl.
  - trivial.
  - intros [Hx Hl]. split; [|now apply IH].
    now apply (Permutation_Forall Hlm).
  - intros [Hy [Hx Hl]]. inversion Hy as [|? ? Hxy Hy']; subst.
    repeat split; try assumption.
    constructor; [|assumption]. now rewrite Result_eqb_sym.
  - auto.
Qed.

Lemma set_insert_has (r : Result) (s : pyset) :
  Result_hashable r = true -> existsb (Result_eqb r) (set_insert r s) = true.
Proof.
  intros Hr. unfold set_insert.
  destruct (existsb (Result_eqb r) s) eqn:E; [exact E|].
  rewrite existsb_app. simpl. now rewrite Result_eqb_refl, orb_true_r.
Qed.

Lemma set_insert_keeps (r x : Result) (s : pyset) :
  existsb (Result_eqb r) s = true -> existsb (Result_eqb r) (set_insert x s) = true.
Proof.
  intros Hr. unfold set_insert.
  destruct (existsb (Result_eqb x) s); [exact Hr|].
  rewrite existsb_app, Hr. reflexivity.
Qed.

Lemma collect_keeps (r : Result) (rs : list Result) (s : pyset) :
  existsb (Result_eqb r) s = true -> existsb (Result_eqb r) (collect rs s) = true.
Proof.
  revert s. induction rs as [|x rs IH]; intros s Hs; simpl; [exact Hs|].
  apply IH. now apply set_insert_keeps.
Qed.

Lemma collect_has (r : Result) (rs : list Result) (s : pyset) :
  Forall (fun x => Result_hashable x = true) rs ->
  In r rs -> existsb (Result_eqb r) (collect rs s) = true.
Proof.
  revert s. induction rs as [|x rs IH]; intros s Hrs; [intros []|].
  inversion Hrs as [|? ? Hx Hrs']; subst.
  intros [->|Hin]; simpl.
  - apply collect_keeps. now apply set_insert_has.
  - now apply IH.
Qed.

Lemma collect_from (x : Result) (rs : list Result) (s : pyset) :
  In x (collect rs s) -> In x s \/ In x rs.
Proof.
  revert s. induction rs as [|r rs IH]; intros s; simpl; [auto|].
  intros [Hin|Hin]%IH; [|auto].
  unfold set_insert in Hin. destruct (existsb (Result_eqb r) s); [auto|].
  apply in_app_or in Hin as [Hin|[<-|[]]]; auto.
Qed.

Lemma update_last {A : Type} (h : list A) (s : A) (f : A -> A) :
  update (length h) f (h ++ [s])%list = (h ++ [f s])%list.
Proof.
  induction h as [|x h IH]; simpl; [reflexivity | now rewrite IH].
Qed.

Lemma nth_last (h : list pyset) (s : pyset) : nth (length h) (h ++ [s])%list [] = s.
Proof.
  induction h as [|x h IH]; simpl; [reflexivity | exact IH].
Qed.

(** Running a program step by step. *)
Lemma bind_run {A B : Type} (m : M A) (k : A -> M B) (w : world) :
  bind m k w
  = match m w with
    | (Ret a, w') => k a w'
    | (Raise e, w') => (Raise e, w')
    end.
Proof.
  reflexivity.
Qed.

Lemma catch_run {A : Type} (m : M A) (handler : exn -> M A) (w : world) :
  catch m handler w
  = match m w with
    | (Ret a, w') => (Ret a, w')
    | (Raise e, w') => handler e w'
    end.
Proof.
  reflexivity.
Qed.

Lemma new_set_run (sg : option nat) (t : list event) (h : list pyset) :
  new_set (mkWorld sg t h) = (Ret (length h), mkWorld sg t (h ++ [[]])%list).
Proof.
  reflexivity.
Qed.

(** One turn of a loop, step by step. *)
Lemma for_each_cons {A : Type} (x : A) (xs : list A) (body : A -> M unit) (w : world) :
  for_each (x :: xs) body w
  = match tick w with
    | (Ret _, w1) =>
        match body x w1 with
        | (Ret _, w2) => for_each xs body w2
        | (Raise e, w2) => (Raise e, w2)
        end
    | (Raise e, w1) => (Raise e, w1)
    end.
Proof.
  unfold for_each. cbn [for_in bind Monad_M].
  destruct (tick w) as [[[]|e] w1]; [|reflexivity].
  destruct (body x w1) as [[[]|e] w2]; reflexivity.
Qed.

Section Executor.

Context {runtime : Runtime}.
Variable requests_post : string -> strdict -> strdict -> outcome Response.

(** One turn of the loop over the rows, for a well-formed row: the set
    behind [results] receives the result. *)
Lemma row_turn (res : json) (r : Result) (sg : option nat) (t : list event)
    (h : list pyset) (s : pyset) :
  well_formed_row res r ->
  (device <- lift (getitem res "DeviceName") ;;
   account <- lift (getitem res "AccountName") ;;
   command_line <- lift (getitem res "ProcessCommandLine") ;;
   path <- lift (getitem res "FolderPath") ;;
   timestamp <- lift (getitem res "Timestamp") ;;
   set_add (length h) (mkResult device account command_line path [timestamp])) (mkWorld sg t (h ++ [s])%list)
  = (Ret tt, mkWorld sg t (h ++ [set_insert r s])%list).
Proof.
  intros [Hrow Hhash]. unfold result_of_row in Hrow.
  destruct res as [| | | | |columns]; try discriminate.
  simpl. unfold lift.
  destruct (lookup "DeviceName" columns) as [d|]; [|discriminate].
  destruct (lookup "AccountName" columns) as [a|]; [|discriminate].
  destruct (lookup "ProcessCommandLine" columns) as [c|]; [|discriminate].
  destruct (lookup "FolderPath" columns) as [p|]; [|discriminate].
  destruct (lookup "Timestamp" columns) as [ts|]; [|discriminate].
  injection Hrow as <-. unfold set_add. rewrite Hhash. simpl.
  now rewrite update_last.
Qed.

(** The loop over well-formed rows, not interrupted. *)
Lemma rows_loop_quiet (rows : list json) (rs : list Result) :
  Forall2 well_formed_row rows rs ->
  forall (t : list event) (h : list pyset) (s : pyset),
    for_each rows (fun res =>
      device <- lift (getitem res "DeviceName") ;;
      account <- lift (getitem res "AccountName") ;;
      command_line <- lift (getitem res "ProcessCommandLine") ;;
      path <- lift (getitem res "FolderPath") ;;
      timestamp <- lift (getitem res "Timestamp") ;;
      set_add (length h) (mkResult device account command_line path [timestamp])) (mkWorld None t (h ++ [s])%list)
    = (Ret tt, mkWorld None t (h ++ [collect rs s])%list).
Proof.
  induction 1 as [|res r rows rs Hrow _ IH]; intros t h s.
  - reflexivity.
  - rewrite for_each_cons. unfold tick. cbn [sigint]. cbv beta zeta.
    rewrite (row_turn None t h s Hrow). apply IH.
Qed.

(** The loop over well-formed rows, interrupted when it comes to its
    head for the [k]-th time (counting from 0): the first [k] rows are in
    the set. *)
Lemma rows_loop_interrupted (rows : list json) (rs : list Result) :
  Forall2 well_formed_row rows rs ->
  forall (k : nat) (t : list event) (h : list pyset) (s : pyset),
    k <= length rows ->
    for_each rows (fun res =>
      device <- lift (getitem res "DeviceName") ;;
      account <- lift (getitem res "AccountName") ;;
      command_line <- lift (getitem res "ProcessCommandLine") ;;
      path <- lift (getitem res "FolderPath") ;;
      timestamp <- lift (getitem res "Timestamp") ;;
      set_add (length h) (mkResult device account command_line path [timestamp])) (mkWorld (Some k) t (h ++ [s])%list)
    = (Raise KeyboardInterrupt, mkWorld None t (h ++ [collect (firstn k rs) s])%list).
Proof.
  induction 1 as [|res r rows rs Hrow _ IH]; intros k t h s Hk.
  - simpl in Hk. assert (k = 0) as -> by lia. reflexivity.
  - destruct k as [|k]; [reflexivity|].
    rewrite for_each_cons. unfold tick. cbn [sigint trace heap]. cbv beta zeta.
    rewrite (row_turn (Some k) t h s Hrow). cbn [firstn collect fold_left].
    apply IH. simpl in Hk. lia.
Qed.

(** An uninterrupted run on a successful response with well-formed rows. *)
Lemma _post_advanced_query_rows (data headers : strdict)
    (members : list (string * json)) (rows : list json) (rs : list Result)
    (t : list event) (h : list pyset) :
  requests_post advanced_query_url data headers
  = Ret (mkResponse 200 (Ret (JDict members))) ->
  lookup "Results" members = Some (JList rows) ->
  Forall2 well_formed_row rows rs ->
  _post_advanced_query requests_post data headers (mkWorld None t h)
  = (Ret (iter_set (collect rs [])),
     mkWorld None (t ++ [Post advanced_query_url data headers])%list
       (h ++ [collect rs []])%list).
Proof.
  intros Hpost Hresults Hrows.
  unfold _post_advanced_query. rewrite bind_run, new_set_run.
  rewrite bind_run, catch_run.
  unfold _post_advanced_query_try. fold advanced_query_url.
  rewrite bind_run, call_quiet, bind_run. unfold lift at 1. rewrite Hpost.
  cbn [status_code Z.eqb Pos.eqb].
  rewrite bind_run. unfold lift at 1. cbn [response_json].
  rewrite bind_run. unfold lift at 1. cbn [getitem]. rewrite Hresults.
  rewrite bind_run. unfold lift at 1. cbn [iter_json].
  rewrite (rows_loop_quiet Hrows).
  unfold list_of_set. cbn [heap]. now rewrite nth_last.
Qed.

(** The same response, interrupted when the loop over the rows comes to
    its head for the [k]-th time: the first [k] rows are returned. *)
Lemma _post_advanced_query_rows_interrupted (data headers : strdict)
    (members : list (string * json)) (rows : list json) (rs : list Result)
    (k : nat) (t : list event) (h : list pyset) :
  requests_post advanced_query_url data headers
  = Ret (mkResponse 200 (Ret (JDict members))) ->
  lookup "Results" members = Some (JList rows) ->
  Forall2 well_formed_row rows rs ->
  k <= length rows ->
  _post_advanced_query requests_post data headers (mkWorld (Some (S k)) t h)
  = (Ret (iter_set (collect (firstn k rs) [])),
     mkWorld None
       (t ++ [Post advanced_query_url data headers;
              Echo "Caught CTRL-C. Rerun surveyor" DEFAULT])%list
       (h ++ [collect (firstn k rs) []])%list).
Proof.
  intros Hpost Hresults Hrows Hk.
  unfold _post_advanced_query. rewrite bind_run, new_set_run.
  rewrite bind_run, catch_run.
  unfold _post_advanced_query_try. fold advanced_query_url.
  rewrite bind_run.
  replace (call (Post advanced_query_url data headers)
             (mkWorld (Some (S k)) t (h ++ [[]])%list))
    with (Ret tt, mkWorld (Some k) (t ++ [Post advanced_query_url data headers])%list
                    (h ++ [[]])%list) by reflexivity.
  rewrite bind_run. unfold lift at 1. rewrite Hpost.
  cbn [status_code Z.eqb Pos.eqb].
  rewrite bind_run. unfold lift at 1. cbn [response_json].
  rewrite bind_run. unfold lift at 1. cbn [getitem]. rewrite Hresults.
  rewrite bind_run. unfold lift at 1. cbn [iter_json].
  rewrite (rows_loop_interrupted Hrows) by exact Hk.
  cbn [is_KeyboardInterrupt]. unfold _echo. rewrite call_quiet.
  unfold list_of_set. cbn [heap]. rewrite nth_last.
  now rewrite <- app_assoc.
Qed.

(** Interrupted at the call of the transport: nothing is posted. *)
Lemma _post_advanced_query_interrupted_at_post (data headers : strdict)
    (t : list event) (h : list pyset) :
  _post_advanced_query requests_post data headers (mkWorld (Some 0) t h)
  = (Ret [],
     mkWorld None (t ++ [Echo "Caught CTRL-C. Rerun surveyor" DEFAULT])%list
       (h ++ [[]])%list).
Proof.
  unfold _post_advanced_query. rewrite bind_run, new_set_run.
  rewrite bind_run, catch_run.
  unfold _post_advanced_query_try. rewrite bind_run.
  unfold call at 1. rewrite bind_run. unfold tick at 1. cbn [sigint trace heap].
  cbn [is_KeyboardInterrupt]. unfold _echo. rewrite call_quiet.
  unfold list_of_set. cbn [heap]. now rewrite nth_last, iter_set_nil.
Qed.

(** Whenever the statements under [try:] end in the interrupt, the
    content of the set at that moment is returned. *)
Lemma _post_advanced_query_catches (data headers : strdict) (w w2 : world) :
  _post_advanced_query_try requests_post (length (heap w)) data headers (snd (new_set w))
  = (Raise KeyboardInterrupt, w2) ->
  sigint w2 = None ->
  _post_advanced_query requests_post data headers w
  = (Ret (iter_set (nth (length (heap w)) (heap w2) [])),
     mkWorld None (trace w2 ++ [Echo "Caught CTRL-C. Rerun surveyor" DEFAULT])%list
       (heap w2)).
Proof.
  intros Htry Hsig. destruct w as [sg t h]. cbn [heap snd] in *.
  unfold _post_advanced_query. rewrite bind_run, new_set_run.
  rewrite new_set_run in Htry. cbn [snd] in Htry.
  rewrite bind_run, catch_run, Htry.
  destruct w2 as [sg2 t2 h2]. cbn [sigint] in Hsig. subst sg2.
  cbn [is_KeyboardInterrupt]. unfold _echo. rewrite call_quiet.
  reflexivity.
Qed.

(** A response that is not a success and whose body is JSON. *)
Lemma _post_advanced_query_failure (data headers : strdict) (response : Response)
    (body : json) (t : list event) (h : list pyset) :
  requests_post advanced_query_url data headers = Ret response ->
  status_code response <> 200%Z ->
  response_json response = Ret body ->
  _post_advanced_query requests_post data headers (mkWorld None t h)
  = (Ret [],
     mkWorld None
       (t ++ [Post advanced_query_url data headers;
              Echo ("Received status code: " ++ str_int (status_code response)
                    ++ " (message: " ++ str_json body ++ ")") DEFAULT])%list
       (h ++ [[]])%list).
Proof.
  intros Hpost Hstatus Hbody.
  unfold _post_advanced_query. rewrite bind_run, new_set_run.
  rewrite bind_run, catch_run.
  unfold _post_advanced_query_try. fold advanced_query_url.
  rewrite bind_run, call_quiet, bind_run. unfold lift at 1. rewrite Hpost.
  apply Z.eqb_neq in Hstatus. rewrite Hstatus.
  rewrite bind_run. unfold lift at 1. rewrite Hbody.
  unfold _echo. rewrite call_quiet.
  unfold list_of_set. cbn [heap]. rewrite nth_last, iter_set_nil.
  now rewrite <- app_assoc.
Qed.

(** A response that is not a success and whose body is not JSON: a
    handler reports the error of the decoding. *)
Lemma _post_advanced_query_failure_undecodable (data headers : strdict)
    (response : Response) (e : exn) (t : list event) (h : list pyset) :
  requests_post advanced_query_url data headers = Ret response ->
  status_code response <> 200%Z ->
  response_json response = Raise e ->
  _post_advanced_query requests_post data headers (mkWorld None t h)
  = (Ret [],
     mkWorld None
       (t ++ Post advanced_query_url data headers :: undecodable_reports e)%list
       (h ++ [[]])%list).
Proof.
  intros Hpost Hstatus Hbody.
  unfold _post_advanced_query. rewrite bind_run, new_set_run.
  rewrite bind_run, catch_run.
  unfold _post_advanced_query_try. fold advanced_query_url.
  rewrite bind_run, call_quiet, bind_run. unfold lift at 1. rewrite Hpost.
  apply Z.eqb_neq in Hstatus. rewrite Hstatus.
  rewrite bind_run. unfold lift at 1. rewrite Hbody.
  unfold undecodable_reports.
  destruct e; cbn [is_KeyboardInterrupt is_Exception];
    try rewrite bind_run; unfold _echo, log_exception; rewrite !call_quiet;
    unfold list_of_set; cbn [heap]; rewrite nth_last, iter_set_nil;
    now rewrite <- !app_assoc.
Qed.


Lemma keeps_distinct_bind {A B : Type} (ref : nat) (m : M A) (k : A -> M B) :
  keeps_distinct ref m -> (forall a, keeps_distinct ref (k a)) ->
  keeps_distinct ref (bind m k).
Proof.
  intros Hm Hk w Hw. rewrite bind_run. specialize (Hm w Hw).
  destruct (m w) as [[a|e] w']; cbn [snd] in *; [now apply Hk | exact Hm].
Qed.

Lemma keeps_distinct_catch {A : Type} (ref : nat) (m : M A) (handler : exn -> M A) :
  keeps_distinct ref m -> (forall e, keeps_distinct ref (handler e)) ->
  keeps_distinct ref (catch m handler).
Proof.
  intros Hm Hh w Hw. rewrite catch_run. specialize (Hm w Hw).
  destruct (m w) as [[a|e] w']; cbn [snd] in *; [exact Hm | now apply Hh].
Qed.

Lemma keeps_distinct_lift {A : Type} (ref : nat) (o : outcome A) :
  keeps_distinct ref (lift o).
Proof.
  intros w Hw. exact Hw.
Qed.

Lemma keeps_distinct_ret {A : Type} (ref : nat) (a : A) : keeps_distinct ref (ret a).
Proof.
  intros w Hw. exact Hw.
Qed.

Lemma keeps_distinct_tick (ref : nat) : keeps_distinct ref tick.
Proof.
  intros w Hw. unfold tick. destruct (sigint w) as [[|n]|]; exact Hw.
Qed.

Lemma keeps_distinct_call (ref : nat) (e : event) : keeps_distinct ref (call e).
Proof.
  unfold call. apply keeps_distinct_bind; [apply keeps_distinct_tick|].
  intros _ w Hw. exact Hw.
Qed.

Lemma keeps_distinct_for_each {A : Type} (ref : nat) (xs : list A) (body : A -> M unit) :
  (forall x, keeps_distinct ref (body x)) -> keeps_distinct ref (for_each xs body).
Proof.
  intros Hbody. unfold for_each.
  induction xs as [|x xs IH]; cbn [for_in].
  - apply keeps_distinct_bind; [apply keeps_distinct_tick|].
    intros. apply keeps_distinct_ret.
  - apply keeps_distinct_bind; [apply keeps_distinct_tick | intros _].
    apply keeps_distinct_bind; [apply Hbody | intros []; exact IH].
Qed.

Lemma pairwise_distinct_update (ref : nat) (r : Result) (h : list pyset) :
  pairwise_distinct (nth ref h []) ->
  pairwise_distinct (nth ref (update ref (set_insert r) h) []).
Proof.
  revert ref. induction h as [|s h IH]; intros [|ref]; cbn [update nth]; trivial.
  - apply pairwise_distinct_insert.
  - apply IH.
Qed.

Lemma keeps_distinct_set_add (ref : nat) (r : Result) : keeps_distinct ref (set_add ref r).
Proof.
  intros w Hw. unfold set_add. destruct (Result_hashable r); cbn [snd heap]; [|exact Hw].
  now apply pairwise_distinct_update.
Qed.

(** Whatever the transport answers and whenever the user interrupts, a
    list that [_post_advanced_query] returns has no two equal members. *)
Lemma _post_advanced_query_distinct (data headers : strdict) (w : world)
    (out : list Result) :
  fst (_post_advanced_query requests_post data headers w) = Ret out ->
  pairwise_distinct out.
Proof.
  destruct w as [sg t h].
  unfold _post_advanced_query. rewrite bind_run, new_set_run, bind_run.
  set (w0 := mkWorld sg t (h ++ [[]])%list).
  assert (Hkeeps : keeps_distinct (length h)
            (catch (_post_advanced_query_try requests_post (length h) data headers)
               (fun e =>
                  if is_KeyboardInterrupt e then
                    _echo "Caught CTRL-C. Rerun surveyor" DEFAULT
                  else if is_Exception e then
                    _echo ("There was an exception " ++ str_exn e) DEFAULT ;;
                    log_exception e
                  else raise e))).
  { apply keeps_distinct_catch.
    - unfold _post_advanced_query_try.
      apply keeps_distinct_bind; [apply keeps_distinct_call | intros _].
      apply keeps_distinct_bind; [apply keeps_distinct_lift | intros response].
      destruct (status_code response =? 200)%Z.
      + repeat (apply keeps_distinct_bind; [apply keeps_distinct_lift | intros ?]).
        apply keeps_distinct_for_each. intros res.
        repeat (apply keeps_distinct_bind; [apply keeps_distinct_lift | intros ?]).
        apply keeps_distinct_set_add.
      + apply keeps_distinct_bind; [apply keeps_distinct_lift | intros body].
        apply keeps_distinct_call.
    - intros e. destruct (is_KeyboardInterrupt e); [apply keeps_distinct_call|].
      destruct (is_Exception e).
      + apply keeps_distinct_bind; [apply keeps_distinct_call | intros _].
        apply keeps_distinct_call.
      + intros w1 Hw1. exact Hw1. }
  specialize (Hkeeps w0). unfold w0 in Hkeeps at 1. cbn [heap] in Hkeeps.
  rewrite nth_last in Hkeeps. specialize (Hkeeps I).
  match goal with
  | |- fst (match ?run with _ => _ end) = _ -> _ =>
      destruct run as [[[]|e] w2]
  end; [|discriminate].
  unfold list_of_set. cbn [fst snd] in *. intros [= <-].
  apply pairwise_distinct_Permutation with (l := nth (length h) (heap w2) []);
    [apply Permutation_sym, iter_set_perm | exact Hkeeps].
Qed.

End Executor.

(* ===================================================================== *)
(** ** Properties of the search executor *)
(* ===================================================================== *)

(** X19. For a response whose status is not 200, an uninterrupted
    [_post_advanced_query] posts once, does not raise and returns the
    empty list.  When the body of the response is JSON, the one
    diagnostic carries the status code and the body; when decoding the
    body raises, the handler of [Exception] reports that error instead. *)
Theorem failure_status_is_reported `{Runtime}
    (requests_post : string -> strdict -> strdict -> outcome Response)
    (data headers : strdict) (response : Response)
    (t : list event) (h : list pyset) :
  requests_post advanced_query_url data headers = Ret response ->
  status_code response <> 200%Z ->
  (exists reports,
     _post_advanced_query requests_post data headers (mkWorld None t h)
     = (Ret [],
        mkWorld None (t ++ Post advanced_query_url data headers :: reports)%list
          (h ++ [[]])%list))
  /\ (forall body,
        response_json response = Ret body ->
        _post_advanced_query requests_post data headers (mkWorld None t h)
        = (Ret [],
           mkWorld None
             (t ++ [Post advanced_query_url data headers;
                    Echo ("Received status code: " ++ str_int (status_code response)
                          ++ " (message: " ++ str_json body ++ ")") DEFAULT])%list
             (h ++ [[]])%list))
  /\ (forall e,
        response_json response = Raise e ->
        is_Exception e = true ->
        _post_advanced_query requests_post data headers (mkWorld None t h)
        = (Ret [],
           mkWorld None
             (t ++ [Post advanced_query_url data headers;
                    Echo ("There was an exception " ++ str_exn e) DEFAULT;
                    LogException e])%list
             (h ++ [[]])%list)).
Proof.
  intros Hpost Hstatus. split; [|split].
  - destruct (response_json response) as [body|e] eqn:Hbody.
    + eexists. eapply _post_advanced_query_failure; eassumption.
    + eexists. eapply _post_advanced_query_failure_undecodable; eassumption.
  - intros body Hbody. eapply _post_advanced_query_failure; eassumption.
  - intros e Hbody He.
    erewrite _post_advanced_query_failure_undecodable by eassumption.
    unfold undecodable_reports. now rewrite He.
Qed.

Lemma failure_status_is_reported_witness :
  503%Z <> 200%Z
  /\ _post_advanced_query (runtime := sample_runtime)
       (fun _ _ _ => Ret (mkResponse 503 (Ret (JDict [("error", JStr "busy")]))))
       [("Query", "DeviceEvents")] [("Accept", "application/json")] (start None)
     = (Ret [],
        mkWorld None
          [ Post advanced_query_url [("Query", "DeviceEvents")]
              [("Accept", "application/json")];
            Echo "Received status code: 503 (message: {'error': 'busy'})" DEFAULT ]
          [[]]).
Proof.
  split; [discriminate|].
  refine (proj1 (proj2 (@failure_status_is_reported sample_runtime
                          (fun _ _ _ => Ret (mkResponse 503
                                               (Ret (JDict [("error", JStr "busy")]))))
                          [("Query", "DeviceEvents")] [("Accept", "application/json")]
                          _ [] [] eq_refl _)) _ eq_refl).
  discriminate.
Defined.

(** C6.  The code at a response with status 500 whose body is not JSON.
    The diagnostic with the status code is built with [response.json()]
    inside the [try] statement; decoding the body raises, the handler of
    [Exception] reports and logs that error, and the diagnostic with the
    status code and the body is never reported.  The function does not
    raise and returns the empty list. *)
Lemma status_500_undecodable_body :
  _post_advanced_query (runtime := sample_runtime)
    (fun _ _ _ => Ret (mkResponse 500 (Raise JSONDecodeError)))
    [("Query", "DeviceEvents")] [] (start None)
  = (Ret [],
     mkWorld None
       [ Post advanced_query_url [("Query", "DeviceEvents")] [];
         Echo "There was an exception Expecting value: line 1 column 1 (char 0)" DEFAULT;
         LogException JSONDecodeError ]
       [[]])
  /\ ~ (exists message,
          In (Echo ("Received status code: 500" ++ message) DEFAULT)
             (trace (snd (_post_advanced_query (runtime := sample_runtime)
                            (fun _ _ _ => Ret (mkResponse 500 (Raise JSONDecodeError)))
                            [("Query", "DeviceEvents")] [] (start None))))).
Proof.
  split; [reflexivity|].
  intros [message Hin]. cbn in Hin.
  destruct Hin as [Hin|[Hin|[Hin|[]]]]; discriminate Hin.
Qed.

(** C7. Whatever the transport answers, a list that
    [_post_advanced_query] returns has no two equal members.  For a
    successful response whose rows are well formed, that list is the set of
    their results in some order: every row has a member equal to its
    result, and every member is the result of a row.  So rows with equal
    tuples give one result. *)
Theorem duplicate_rows_collapse `{Runtime}
    (requests_post : string -> strdict -> strdict -> outcome Response)
    (data headers : strdict) (members : list (string * json))
    (rows : list json) (rs : list Result) (t : list event) (h : list pyset) :
  (forall w out,
     fst (_post_advanced_query requests_post data headers w) = Ret out ->
     pairwise_distinct out)
  /\ (requests_post advanced_query_url data headers
      = Ret (mkResponse 200 (Ret (JDict members))) ->
      lookup "Results" members = Some (JList rows) ->
      Forall2 well_formed_row rows rs ->
      exists out,
        _post_advanced_query requests_post data headers (mkWorld None t h)
        = (Ret out,
           mkWorld None (t ++ [Post advanced_query_url data headers])%list
             (h ++ [collect rs []])%list)
        /\ Permutation out (collect rs [])
        /\ pairwise_distinct out
        /\ (forall r, In r rs -> exists x, In x out /\ Result_eqb r x = true)
        /\ (forall x, In x out -> In x rs)).
Proof.
  split; [intros w out; apply _post_advanced_query_distinct|].
  intros Hpost Hresults Hrows.
  exists (iter_set (collect rs [])).
  assert (Hperm := iter_set_perm (collect rs [])).
  split; [eapply _post_advanced_query_rows; eassumption|].
  split; [exact Hperm|]. split; [|split].
  - apply pairwise_distinct_Permutation with (l := collect rs []).
    + now apply Permutation_sym.
    + now apply pairwise_distinct_collect.
  - intros r Hin.
    assert (Hhash : Forall (fun x => Result_hashable x = true) rs).
    { clear -Hrows. induction Hrows as [|res r rows rs [_ Hr] _ IH]; constructor; auto. }
    destruct (proj1 (existsb_exists _ _) (@collect_has r rs [] Hhash Hin)) as (x & Hx & Heq).
    exists x. split; [|exact Heq].
    apply Permutation_in with (l := collect rs []); [now apply Permutation_sym | exact Hx].
  - intros x Hin. apply (Permutation_in x Hperm) in Hin.
    apply collect_from in Hin as [[]|Hin]. exact Hin.
Qed.

Lemma duplicate_rows_collapse_witness :
  collect [demo_result "WIN10"; demo_result "WIN11"; demo_result "WIN10"] []
  = [demo_result "WIN10"; demo_result "WIN11"]
  /\ exists out,
       _post_advanced_query (runtime := sample_runtime) demo_transport
         [("Query", "DeviceProcessEvents")] [] (start None)
       = (Ret out,
          mkWorld None [Post advanced_query_url [("Query", "DeviceProcessEvents")] []]
            [collect [demo_result "WIN10"; demo_result "WIN11"; demo_result "WIN10"] []])
       /\ Permutation out
            (collect [demo_result "WIN10"; demo_result "WIN11"; demo_result "WIN10"] [])
       /\ pairwise_distinct out
       /\ (forall r,
             In r [demo_result "WIN10"; demo_result "WIN11"; demo_result "WIN10"] ->
             exists x, In x out /\ Result_eqb r x = true)
       /\ (forall x,
             In x out ->
             In x [demo_result "WIN10"; demo_result "WIN11"; demo_result "WIN10"]).
Proof.
  split; [reflexivity|].
  apply (proj2 (@duplicate_rows_collapse sample_runtime demo_transport
                  [("Query", "DeviceProcessEvents")] []
                  [("Results", JList [demo_row "WIN10"; demo_row "WIN11"; demo_row "WIN10"])]
                  [demo_row "WIN10"; demo_row "WIN11"; demo_row "WIN10"]
                  [demo_result "WIN10"; demo_result "WIN11"; demo_result "WIN10"] [] []));
    [reflexivity | reflexivity | repeat constructor].
Defined.

(** C8. When the user's interrupt ends the loop over the criteria,
    [nested_process_search] does not let it out: it reports it, processes
    no further entry and calls the sink with what [results] holds, the
    empty list.  When it ends the statements under [try:] of
    [_post_advanced_query], that function reports it and returns the
    content of the set at that moment: nothing when it lands on the call
    of the transport, the results of the first [k] rows when it lands on
    the loop over the rows for the [k]-th time. *)
Theorem interrupt_is_caught `{Runtime} :
  (forall (tag : Tag) (criteria : SearchCriteria) (base_query : BaseFilters)
          (w : world) (query_base : string) (w1 w2 : world),
     build_query base_query (snd (new_set w)) = (Ret query_base, w1) ->
     nested_process_search_try tag criteria base_query query_base w1
     = (Raise KeyboardInterrupt, w2) ->
     nested_process_search tag criteria base_query w
     = (Ret tt,
        mkWorld None
          (trace w2 ++ [Echo "Caught CTRL-C. Returning what we have..." DEFAULT;
                        AddResults [] tag])%list
          (heap w ++ [[]])%list))
  /\ (forall (requests_post : string -> strdict -> strdict -> outcome Response)
             (data headers : strdict) (w w2 : world),
        _post_advanced_query_try requests_post (length (heap w)) data headers
          (snd (new_set w))
        = (Raise KeyboardInterrupt, w2) ->
        sigint w2 = None ->
        _post_advanced_query requests_post data headers w
        = (Ret (iter_set (nth (length (heap w)) (heap w2) [])),
           mkWorld None
             (trace w2 ++ [Echo "Caught CTRL-C. Rerun surveyor" DEFAULT])%list
             (heap w2)))
  /\ (forall (requests_post : string -> strdict -> strdict -> outcome Response)
             (data headers : strdict) (t : list event) (h : list pyset),
        _post_advanced_query requests_post data headers (mkWorld (Some 0) t h)
        = (Ret [],
           mkWorld None (t ++ [Echo "Caught CTRL-C. Rerun surveyor" DEFAULT])%list
             (h ++ [[]])%list))
  /\ (forall (requests_post : string -> strdict -> strdict -> outcome Response)
             (data headers : strdict) (members : list (string * json))
             (rows : list json) (rs : list Result) (k : nat)
             (t : list event) (h : list pyset),
        requests_post advanced_query_url data headers
        = Ret (mkResponse 200 (Ret (JDict members))) ->
        lookup "Results" members = Some (JList rows) ->
        Forall2 well_formed_row rows rs ->
        k <= length rows ->
        _post_advanced_query requests_post data headers (mkWorld (Some (S k)) t h)
        = (Ret (iter_set (collect (firstn k rs) [])),
           mkWorld None
             (t ++ [Post advanced_query_url data headers;
                    Echo "Caught CTRL-C. Rerun surveyor" DEFAULT])%list
             (h ++ [collect (firstn k rs) []])%list)).
Proof.
  split; [|split; [|split]].
  - intros tag criteria base_query [sg t h] query_base w1 w2 Hbuild Htry.
    rewrite new_set_run in Hbuild. cbn [snd] in Hbuild.
    destruct (orderly_build_query base_query
                (mkWorld sg t (h ++ [[]])%list)) as [Hheap1 _].
    destruct (orderly_nested_process_search_try tag criteria base_query query_base w1)
      as [Hheap2 Hraise].
    rewrite Hbuild in Hheap1. rewrite Htry in Hheap2, Hraise.
    cbn [fst snd heap] in *.
    destruct (Hraise _ eq_refl) as [_ Hsig].
    destruct w2 as [sg2 t2 h2]. cbn [sigint heap trace] in *. subst sg2.
    unfold nested_process_search. rewrite bind_run, new_set_run.
    rewrite bind_run, Hbuild, bind_run.
    unfold try_except_KeyboardInterrupt. rewrite catch_run, Htry.
    cbn [is_KeyboardInterrupt]. unfold _echo. rewrite call_quiet.
    rewrite bind_run. unfold list_of_set. cbn [heap].
    rewrite Hheap2, Hheap1, nth_last, iter_set_nil.
    unfold _add_results. rewrite call_quiet. now rewrite <- app_assoc.
  - intros. now apply _post_advanced_query_catches.
  - intros. apply _post_advanced_query_interrupted_at_post.
  - intros. eapply _post_advanced_query_rows_interrupted; eassumption.
Qed.

Lemma interrupt_is_caught_witness :
  nested_process_search (runtime := sample_runtime) "demo"
    [("md5", TermList ["d41d8cd98f00b204e9800998ecf8427e"]);
     ("sha1", TermList ["da39a3ee5e6b4b0d3255bfef95601890afd80709"])]
    [("days", VInt 7)] (start (Some 5))
  = (Ret tt,
     mkWorld None
       [ LogDebug
           ("Query: DeviceProcessEvents | where MD5 has_any "
            ++ "('d41d8cd98f00b204e9800998ecf8427e')  | where Timestamp > ago(7d)"
            ++ " | project DeviceName, AccountName, FolderPath, ProcessCommandLine");
         Echo "Caught CTRL-C. Returning what we have..." DEFAULT;
         AddResults [] "demo" ]
       [[]])
  /\ _post_advanced_query (runtime := sample_runtime) demo_transport
       [("Query", "DeviceProcessEvents")] [] (start (Some 3))
     = (Ret [demo_result "WIN10"; demo_result "WIN11"],
        mkWorld None
          [ Post advanced_query_url [("Query", "DeviceProcessEvents")] [];
            Echo "Caught CTRL-C. Rerun surveyor" DEFAULT ]
          [[demo_result "WIN10"; demo_result "WIN11"]]).
Proof.
  split.
  - refine (proj1 (@interrupt_is_caught sample_runtime) "demo"
              [("md5", TermList ["d41d8cd98f00b204e9800998ecf8427e"]);
               ("sha1", TermList ["da39a3ee5e6b4b0d3255bfef95601890afd80709"])]
              [("days", VInt 7)] (start (Some 5))
              "| where Timestamp > ago(7d)" (mkWorld (Some 3) [] [[]])
              (mkWorld None
                 [LogDebug
                    ("Query: DeviceProcessEvents | where MD5 has_any "
                     ++ "('d41d8cd98f00b204e9800998ecf8427e')  | where Timestamp > ago(7d)"
                     ++ " | project DeviceName, AccountName, FolderPath, ProcessCommandLine")]
                 [[]])
              _ _); reflexivity.
  - refine (proj2 (proj2 (proj2 (@interrupt_is_caught sample_runtime))) demo_transport
              [("Query", "DeviceProcessEvents")] []
              [("Results", JList [demo_row "WIN10"; demo_row "WIN11"; demo_row "WIN10"])]
              [demo_row "WIN10"; demo_row "WIN11"; demo_row "WIN10"]
              [demo_result "WIN10"; demo_result "WIN11"; demo_result "WIN10"]
              2 [] [] _ _ _ _);
      [reflexivity | reflexivity | repeat constructor | simpl; lia].
Defined.

(* ===================================================================== *)
(** ** Configuration errors *)
(* ===================================================================== *)

(** What [_authenticate] does once the file is read: it returns or
    raises at once, and the world is as before. *)
Lemma _authenticate_run (config_read : string -> outcome ConfigParser)
    (name file : string) (config : ConfigParser) (w : world) :
  config_read file = Ret config ->
  _authenticate config_read (mkDefenderForEndpoints name file) w
  = (if negb (config_contains config name) then
       Raise (ValueError ("Profile " ++ name
                          ++ " is not present in credential file"))
     else if negb (has_option config name "tenantId")
             || negb (has_option config name "appId")
             || negb (has_option config name "appSecret")
     then
       Raise (ValueError
                "Credential file must contain tenantId, appId, and appSecret values")
     else Ret tt, w).
Proof.
  intros Hread. unfold _authenticate. rewrite bind_run.
  cbn [creds_file profile]. unfold lift. rewrite Hread. cbv beta iota zeta.
  destruct (negb (config_contains config name)); [reflexivity|].
  destruct (negb (has_option config name "tenantId")
            || negb (has_option config name "appId")
            || negb (has_option config name "appSecret")); reflexivity.
Qed.






(* ===================================================================== *)
(** ** More about the query translator *)
(* ===================================================================== *)

(** What an uninterrupted run returns and reports is determined. *)
Lemma quietly_unique {A : Type} (m : M A) (a a' : A) (evs evs' : list event) :
  quietly m a evs -> quietly m a' evs' -> a = a' /\ evs = evs'.
Proof.
  intros H1 H2. specialize (H1 [] []). specialize (H2 [] []).
  rewrite H1 in H2. now injection H2 as -> ->.
Qed.

Lemma base_clause_text_app (f1 f2 : BaseFilters) :
  base_clause_text (f1 ++ f2)%list = base_clause_text f1 ++ base_clause_text f2.
Proof.
  unfold base_clause_text, base_clauses. now rewrite flat_map_app, concat_app.
Qed.

Lemma base_warnings_app (f1 f2 : BaseFilters) :
  base_warnings (f1 ++ f2)%list = (base_warnings f1 ++ base_warnings f2)%list.
Proof.
  unfold base_warnings. apply flat_map_app.
Qed.

(** X1. [build_query] composes: on two filter mappings put one after the
    other it returns the two clauses one after the other and reports the
    warnings of the first, then those of the second. *)
Theorem build_query_app (f1 f2 : BaseFilters) :
  exists q1 q2 e1 e2,
    quietly (build_query f1) q1 e1
    /\ quietly (build_query f2) q2 e2
    /\ quietly (build_query (f1 ++ f2)%list) (q1 ++ q2) (e1 ++ e2)%list.
Proof.
  exists (base_clause_text f1), (base_clause_text f2),
    (base_warnings f1), (base_warnings f2).
  repeat split; try apply build_query_quietly.
  rewrite <- base_clause_text_app, <- base_warnings_app. apply build_query_quietly.
Qed.

Lemma base_clause_recognized (key : string) (v : Value) :
  In key recognized_keys -> exists c, base_clause key v = Some c /\ c <> "".
Proof.
  unfold recognized_keys.
  intros [<-|[<-|[<-|[<-|[]]]]]; eexists; (split; [reflexivity | discriminate]).
Qed.

Lemma base_clause_None (key : string) (v : Value) :
  base_clause key v = None <-> ~ In key recognized_keys.
Proof.
  split.
  - intros Hnone Hin. destruct (@base_clause_recognized key v Hin) as (c & Hc & _).
    congruence.
  - intros Hkey. apply base_clause_unrecognized; apply String.eqb_neq;
      intros ->; apply Hkey; unfold recognized_keys; simpl; tauto.
Qed.

Lemma append_eq_nil_l (a b : string) : a ++ b = "" -> a = "".
Proof.
  destruct a; [trivial | discriminate].
Qed.

Lemma base_clause_text_empty (filters : BaseFilters) :
  base_clause_text filters = ""
  <-> forall key v, In (key, v) filters -> ~ In key recognized_keys.
Proof.
  induction filters as [|[k x] filters IH].
  - split; [intros _ key v [] | reflexivity].
  - change ((k, x) :: filters) with ([(k, x)] ++ filters)%list.
    rewrite base_clause_text_app. split.
    + intros Hempty key v [[= <- <-]|Hin].
      * apply append_eq_nil_l in Hempty.
        intros Hk. destruct (@base_clause_recognized k x Hk) as (c & Hc & Hne).
        unfold base_clause_text, base_clauses in Hempty. cbn [flat_map] in Hempty.
        rewrite Hc in Hempty. cbn in Hempty. contradiction.
      * apply append_eq_nil in Hempty. now apply (proj1 IH Hempty key v).
    + intros Hall.
      assert (Hk : base_clause k x = None).
      { apply (proj2 (base_clause_None k x)). apply (Hall k x). now left. }
      unfold base_clause_text at 1, base_clauses. cbn [flat_map]. rewrite Hk.
      cbn [app String.concat append].
      apply IH. intros key v Hin. apply (Hall key v). now right.
Qed.

(** X2. [build_query] returns the empty clause, a query that no filter
    restricts, exactly when none of the keys of the mapping is one of
    [days], [minutes], [hostname], [username]: a misspelt key costs a
    warning and drops its restriction. *)
Theorem build_query_empty_clause (filters : BaseFilters) :
  exists clause warnings,
    quietly (build_query filters) clause warnings
    /\ (clause = ""
        <-> forall key v,
              In (key, v) filters ->
              ~ In key ["days"; "minutes"; "hostname"; "username"]).
Proof.
  exists (base_clause_text filters), (base_warnings filters).
  split; [apply build_query_quietly | apply base_clause_text_empty].
Qed.

Lemma rstrip_rest (s : string) : exists spaces, s = rstrip s ++ spaces /\ all_space spaces.
Proof.
  induction s as [|c s (spaces & Hs & Hsp)]; [exists ""; split; [reflexivity | constructor]|].
  cbn [rstrip]. destruct (rstrip s) as [|d r] eqn:E.
  - destruct (isspace c) eqn:Hc.
    + exists (String c spaces). split; [now rewrite Hs at 1|].
      constructor; assumption.
    + exists spaces. split; [now rewrite Hs at 1 | exact Hsp].
  - exists spaces. split; [now rewrite Hs at 1 | exact Hsp].
Qed.

Lemma rstrip_last_char (s : string) (c : ascii) :
  last_char (rstrip s) = Some c -> isspace c = false.
Proof.
  induction s as [|a s IH]; [discriminate|].
  cbn [rstrip]. destruct (rstrip s) as [|d r] eqn:E.
  - destruct (isspace a) eqn:Ha; [discriminate|].
    cbn. now intros [= <-].
  - exact IH.
Qed.

(** X3. The query that [process_search] builds is the query it is given
    followed by the base clause, less the white space at its end: what is
    cut is white space only, and what is left does not end in white
    space. *)
Theorem process_search_trims (tag : Tag) (base_query : BaseFilters) (query : string) :
  exists clause warnings built spaces,
    quietly (build_query base_query) clause warnings
    /\ quietly (process_search tag base_query query) tt
         (warnings ++ [LogDebug ("Query: " ++ built)])%list
    /\ query ++ clause = built ++ spaces
    /\ all_space spaces
    /\ forall c, last_char built = Some c -> isspace c = false.
Proof.
  destruct (rstrip_rest (query ++ base_clause_text base_query)) as (spaces & Hs & Hsp).
  exists (base_clause_text base_query), (base_warnings base_query),
    (rstrip (query ++ base_clause_text base_query)), spaces.
  split; [apply build_query_quietly|].
  split; [apply process_search_quietly|].
  split; [exact Hs|]. split; [exact Hsp|].
  intros c. apply rstrip_last_char.
Qed.

(** X4. [nested_process_search] composes over the criteria: on two
    mappings put one after the other it reports, between the warnings
    about the base filters and the one call of the sink, what it reports
    on the first and then what it reports on the second. *)
Theorem nested_process_search_app `{Runtime} (tag : Tag) (c1 c2 : SearchCriteria)
    (base_query : BaseFilters) (t : list event) (h : list pyset) :
  exists warnings r1 r2,
    (exists clause, quietly (build_query base_query) clause warnings)
    /\ nested_process_search tag c1 base_query (mkWorld None t h)
       = (Ret tt,
          mkWorld None (t ++ warnings ++ r1 ++ [AddResults [] tag])%list
            (h ++ [[]])%list)
    /\ nested_process_search tag c2 base_query (mkWorld None t h)
       = (Ret tt,
          mkWorld None (t ++ warnings ++ r2 ++ [AddResults [] tag])%list
            (h ++ [[]])%list)
    /\ nested_process_search tag (c1 ++ c2)%list base_query (mkWorld None t h)
       = (Ret tt,
          mkWorld None (t ++ warnings ++ r1 ++ r2 ++ [AddResults [] tag])%list
            (h ++ [[]])%list).
Proof.
  exists (base_warnings base_query), (expand base_query c1), (expand base_query c2).
  split; [eexists; apply build_query_quietly|].
  rewrite !nested_process_search_run. unfold expand. rewrite flat_map_app.
  repeat split. now rewrite <- !app_assoc.
Qed.

(** X5. A raw query gives the same built query whether it comes as a
    string or as a list of one string: the raw text, the base clause, and
    the white space at the end cut.  The string form builds the base
    clause a second time, in [process_search], and so reports the warnings
    about unsupported base filters twice. *)
Theorem scalar_query_repeats_warnings `{Runtime} (tag : Tag) (raw : string)
    (base_query : BaseFilters) (t : list event) (h : list pyset) :
  exists clause warnings,
    quietly (build_query base_query) clause warnings
    /\ nested_process_search tag [("query", TermList [raw])] base_query
         (mkWorld None t h)
       = (Ret tt,
          mkWorld None
            (t ++ warnings
               ++ [LogDebug ("Query: " ++ rstrip (raw ++ clause)); AddResults [] tag])%list
            (h ++ [[]])%list)
    /\ nested_process_search tag [("query", TermStr raw)] base_query
         (mkWorld None t h)
       = (Ret tt,
          mkWorld None
            (t ++ warnings ++ warnings
               ++ [LogDebug ("Query: " ++ rstrip (raw ++ clause)); AddResults [] tag])%list
            (h ++ [[]])%list).
Proof.
  exists (base_clause_text base_query), (base_warnings base_query).
  split; [apply build_query_quietly|].
  rewrite !nested_process_search_run. unfold expand. cbn [flat_map expand_entry].
  cbn [String.eqb Ascii.eqb Bool.eqb map app]. unfold query_built.
  split; [reflexivity|].
  now rewrite <- !app_assoc.
Qed.

Lemma base_warnings_no_query (filters : BaseFilters) :
  filter is_query_line (base_warnings filters) = [].
Proof.
  unfold base_warnings. induction filters as [|[key v] filters IH]; [reflexivity|].
  cbn [flat_map]. rewrite filter_app, IH.
  now destruct (base_clause key v).
Qed.

Lemma expand_entry_queries (base_query : BaseFilters) (entry : string * Terms) :
  length (filter is_query_line (expand_entry base_query entry)) = queries_of_entry entry.
Proof.
  destruct entry as [key ts]. unfold expand_entry, queries_of_entry.
  destruct (String.eqb key "query").
  - destruct ts as [raws|raw].
    + induction raws as [|raw raws IH]; [reflexivity|]. cbn. now rewrite IH.
    + now rewrite filter_app, base_warnings_no_query.
  - now destruct (lookup key PARAMETER_MAPPING).
Qed.

(** X6. The number of queries built in a run is the number the entries
    ask for: one for each raw query, one for each field of
    [PARAMETER_MAPPING] whatever the number of its terms, none for any
    other field. *)
Theorem queries_built_count `{Runtime} (tag : Tag) (criteria : SearchCriteria)
    (base_query : BaseFilters) (t : list event) (h : list pyset) :
  exists evs,
    nested_process_search tag criteria base_query (mkWorld None t h)
    = (Ret tt, mkWorld None (t ++ evs)%list (h ++ [[]])%list)
    /\ length (filter is_query_line evs) = list_sum (map queries_of_entry criteria).
Proof.
  eexists. split; [apply nested_process_search_run|].
  rewrite !filter_app, base_warnings_no_query. cbn [app filter is_query_line].
  rewrite app_nil_r. unfold expand.
  induction criteria as [|entry criteria IH]; [reflexivity|].
  cbn [flat_map map list_sum fold_right]. rewrite filter_app, length_app.
  rewrite expand_entry_queries. f_equal. exact IH.
Qed.

(* ===================================================================== *)
(** ** Where an interrupt is not caught *)
(* ===================================================================== *)

Lemma reporting_ret {A : Type} (a : A) : reporting (ret a).
Proof.
  intros w. exists []. split; [now rewrite app_nil_r | constructor].
Qed.

Lemma reporting_tick : reporting tick.
Proof.
  intros w. exists []. rewrite app_nil_r. split; [|constructor].
  unfold tick. now destruct (sigint w) as [[|n]|].
Qed.

Lemma reporting_bind {A B : Type} (m : M A) (k : A -> M B) :
  reporting m -> (forall a, reporting (k a)) -> reporting (bind m k).
Proof.
  intros Hm Hk w. rewrite bind_run. destruct (Hm w) as (e1 & Ht1 & Hr1).
  destruct (m w) as [[a|e] w']; cbn [snd] in *.
  - destruct (Hk a w') as (e2 & Ht2 & Hr2). exists (e1 ++ e2)%list.
    split; [now rewrite Ht2, Ht1, app_assoc | now apply Forall_app].
  - now exists e1.
Qed.

Lemma reporting_call (e : event) : is_report e = true -> reporting (call e).
Proof.
  intros He w. unfold call. rewrite bind_run.
  unfold tick. destruct (sigint w) as [[|n]|]; cbn [snd trace].
  - exists []. split; [now rewrite app_nil_r | constructor].
  - exists [e]. split; [reflexivity | now repeat constructor].
  - exists [e]. split; [reflexivity | now repeat constructor].
Qed.

Lemma reporting_for_in {A S : Type} (xs : list A) (body : S -> A -> M S) :
  (forall acc x, reporting (body acc x)) -> forall acc, reporting (for_in xs acc body).
Proof.
  intros Hbody. induction xs as [|x xs IH]; intros acc; cbn [for_in].
  - apply reporting_bind; [apply reporting_tick | intros; apply reporting_ret].
  - apply reporting_bind; [apply reporting_tick | intros _].
    apply reporting_bind; [apply Hbody | apply IH].
Qed.

Lemma reporting_build_query (filters : BaseFilters) : reporting (build_query filters).
Proof.
  unfold build_query. apply reporting_for_in. intros acc [key v].
  repeat match goal with
         | |- reporting (if ?b then _ else _) => destruct b
         end; try apply reporting_ret.
  apply reporting_bind; [now apply reporting_call | intros; apply reporting_ret].
Qed.

Lemma reporting_process_search (tag : Tag) (base_query : BaseFilters) (query : string) :
  reporting (process_search tag base_query query).
Proof.
  unfold process_search. apply reporting_bind; [apply reporting_build_query | intros clause].
  apply reporting_bind; [now apply reporting_call | intros; apply reporting_ret].
Qed.

Lemma reporting_nested_process_search_try (tag : Tag) (criteria : SearchCriteria)
    (base_query : BaseFilters) (query_base : string) :
  reporting (nested_process_search_try tag criteria base_query query_base).
Proof.
  unfold nested_process_search_try, for_each. apply reporting_for_in.
  intros _ [search_field ts].
  destruct (String.eqb search_field "query").
  - destruct ts as [l|s]; [|apply reporting_process_search].
    apply reporting_for_in. intros _ query_entry. apply reporting_process_search.
  - cbv zeta. destruct (lookup search_field PARAMETER_MAPPING).
    + apply reporting_process_search.
    + now apply reporting_call.
Qed.

Lemma counts_down_ret {A : Type} (a : A) : counts_down (ret a).
Proof.
  intros n t h. cbn. now exists n.
Qed.

Lemma counts_down_tick : counts_down tick.
Proof.
  intros [|n] t h; cbn; [reflexivity|]. exists n. split; [reflexivity | lia].
Qed.

Lemma counts_down_bind {A B : Type} (m : M A) (k : A -> M B) :
  counts_down m -> (forall a, counts_down (k a)) -> counts_down (bind m k).
Proof.
  intros Hm Hk n t h. rewrite bind_run. specialize (Hm n t h).
  destruct (m (mkWorld (Some n) t h)) as [[a|e] [sg' t' h']]; [|exact Hm].
  destruct Hm as (n' & Hsg & Hle). cbn [sigint] in Hsg. subst sg'.
  specialize (Hk a n' t' h').
  destruct (k a (mkWorld (Some n') t' h')) as [[b|e] w'']; [|exact Hk].
  destruct Hk as (n'' & Hsg & Hle'). exists n''. split; [exact Hsg | lia].
Qed.

Lemma counts_down_call (e : event) : counts_down (call e).
Proof.
  unfold call. apply counts_down_bind; [apply counts_down_tick|].
  intros _ n t h. cbn. now exists n.
Qed.

(** A loop that the interrupt reaches before its last head ends in it. *)
Lemma for_in_interrupted {A S : Type} (body : S -> A -> M S) :
  (forall acc x, counts_down (body acc x)) ->
  forall (xs : list A) (n : nat) (acc : S) (t : list event) (h : list pyset),
    n <= length xs ->
    fst (for_in xs acc body (mkWorld (Some n) t h)) = Raise KeyboardInterrupt.
Proof.
  intros Hbody. induction xs as [|x xs IH]; intros n acc t h Hn; cbn [for_in].
  - cbn [length] in Hn. assert (n = 0) as -> by lia. reflexivity.
  - destruct n as [|n]; [reflexivity|].
    rewrite bind_run. cbn [tick sigint trace heap]. unfold tick. cbn [sigint trace heap].
    rewrite bind_run. specialize (Hbody acc x n t h).
    destruct (body acc x (mkWorld (Some n) t h)) as [[acc'|e] [sg' t' h']];
      [|now subst e].
    destruct Hbody as (n' & Hsg & Hle). cbn [sigint] in Hsg. subst sg'.
    apply IH. cbn [length] in Hn. lia.
Qed.

Lemma build_query_interrupted (filters : BaseFilters) (n : nat)
    (t : list event) (h : list pyset) :
  n <= length filters ->
  fst (build_query filters (mkWorld (Some n) t h)) = Raise KeyboardInterrupt.
Proof.
  unfold build_query. apply for_in_interrupted. intros acc [key v].
  repeat match goal with
         | |- counts_down (if ?b then _ else _) => destruct b
         end; try apply counts_down_ret.
  apply counts_down_bind; [apply counts_down_call | intros; apply counts_down_ret].
Qed.

(** X7. The base clause is built before the [try]: an interrupt that
    lands while [build_query] runs (here, before the loop over the base
    filters is over) leaves [nested_process_search] as
    [KeyboardInterrupt].  Nothing but reports has happened by then: no
    query is sent and the sink is not called. *)
Theorem interrupt_before_try_escapes `{Runtime} (tag : Tag) (criteria : SearchCriteria)
    (base_query : BaseFilters) (n : nat) (t : list event) (h : list pyset) :
  n <= length base_query ->
  fst (nested_process_search tag criteria base_query (mkWorld (Some n) t h))
  = Raise KeyboardInterrupt
  /\ exists reports,
       trace (snd (nested_process_search tag criteria base_query
                     (mkWorld (Some n) t h)))
       = (t ++ reports)%list
       /\ Forall (fun e => is_report e = true) reports.
Proof.
  intros Hn. unfold nested_process_search.
  rewrite bind_run, new_set_run, bind_run.
  pose proof (@build_query_interrupted base_query n t (h ++ [[]])%list Hn) as Hraise.
  destruct (reporting_build_query base_query
              (mkWorld (Some n) t (h ++ [[]])%list)) as (evs & Ht & Hr).
  destruct (build_query base_query (mkWorld (Some n) t (h ++ [[]])%list))
    as [[query_base|e] w1]; cbn [fst snd trace] in *; [discriminate|].
  injection Hraise as ->. split; [reflexivity|]. now exists evs.
Qed.

Lemma interrupt_before_try_escapes_witness :
  1 <= length [("days", VInt 7); ("os", VStr "linux")]
  /\ nested_process_search (runtime := sample_runtime) "demo"
       [("md5", TermList ["d41d8cd98f00b204e9800998ecf8427e"])]
       [("days", VInt 7); ("os", VStr "linux")] (mkWorld (Some 1) [] [])
     = (Raise KeyboardInterrupt, mkWorld None [] [[]])
  /\ fst (nested_process_search (runtime := sample_runtime) "demo"
            [("md5", TermList ["d41d8cd98f00b204e9800998ecf8427e"])]
            [("days", VInt 7); ("os", VStr "linux")] (mkWorld (Some 1) [] []))
     = Raise KeyboardInterrupt.
Proof.
  split; [simpl; lia|]. split; [reflexivity|].
  refine (proj1 (@interrupt_before_try_escapes sample_runtime "demo"
                   [("md5", TermList ["d41d8cd98f00b204e9800998ecf8427e"])]
                   [("days", VInt 7); ("os", VStr "linux")] 1 [] [] _)).
  simpl; lia.
Defined.

(** X8. Whatever is pending, [nested_process_search] ends in one of two
    ways.  Either it returns, and then it has called the sink once, as the
    last thing it did, with the empty list; or it lets the user's
    interrupt out, and then it has not called the sink.  In both cases all
    it has done before is report: it never posts a query. *)
Theorem sink_called_iff_returns `{Runtime} (tag : Tag) (criteria : SearchCriteria)
    (base_query : BaseFilters) (w : world) :
  exists reports,
    Forall (fun e => is_report e = true) reports
    /\ ((fst (nested_process_search tag criteria base_query w) = Ret tt
         /\ trace (snd (nested_process_search tag criteria base_query w))
            = (trace w ++ reports ++ [AddResults [] tag])%list)
        \/ (fst (nested_process_search tag criteria base_query w)
            = Raise KeyboardInterrupt
            /\ trace (snd (nested_process_search tag criteria base_query w))
               = (trace w ++ reports)%list)).
Proof.
  destruct w as [sg t h]. unfold nested_process_search.
  rewrite bind_run, new_set_run, bind_run. cbn [trace].
  set (w0 := mkWorld sg t (h ++ [[]])%list).
  destruct (reporting_build_query base_query w0) as (e1 & Ht1 & Hr1).
  destruct (orderly_build_query base_query w0) as [Hh1 Hx1].
  destruct (build_query base_query w0) as [[query_base|x] w1]; cbn [fst snd] in *.
  2:{ exists e1. split; [exact Hr1|]. right.
      destruct (Hx1 x eq_refl) as [-> _]. now split. }
  rewrite bind_run. unfold try_except_KeyboardInterrupt. rewrite catch_run.
  destruct (reporting_nested_process_search_try tag criteria base_query query_base w1)
    as (e2 & Ht2 & Hr2).
  destruct (orderly_nested_process_search_try tag criteria base_query query_base w1)
    as [Hh2 Hx2].
  destruct (nested_process_search_try tag criteria base_query query_base w1)
    as [[[]|x] [sg2 t2 h2]]; cbn [fst snd trace heap sigint] in *.
  - rewrite bind_run. unfold list_of_set. cbn [heap].
    rewrite Hh2, Hh1. unfold w0. cbn [heap]. rewrite nth_last, iter_set_nil.
    unfold _add_results, call. rewrite bind_run. unfold tick. cbn [sigint trace heap].
    exists (e1 ++ e2)%list. split; [now apply Forall_app|].
    rewrite Ht2, Ht1. unfold w0. cbn [trace].
    destruct sg2 as [[|k]|]; cbn [fst snd trace].
    + right. split; [reflexivity | now rewrite <- app_assoc].
    + left. split; [reflexivity | now rewrite <- !app_assoc].
    + left. split; [reflexivity | now rewrite <- !app_assoc].
  - destruct (Hx2 x eq_refl) as [-> Hsig]. subst sg2.
    cbn [is_KeyboardInterrupt]. unfold _echo. rewrite call_quiet.
    rewrite bind_run. unfold list_of_set. cbn [heap].
    rewrite Hh2, Hh1. unfold w0. cbn [heap]. rewrite nth_last, iter_set_nil.
    unfold _add_results. rewrite call_quiet. cbn [fst snd trace].
    exists (e1 ++ e2 ++ [Echo "Caught CTRL-C. Returning what we have..." DEFAULT])%list.
    split.
    + apply Forall_app. split; [exact Hr1|].
      apply Forall_app. split; [exact Hr2 | now repeat constructor].
    + left. split; [reflexivity|].
      rewrite Ht2, Ht1. unfold w0. cbn [trace]. now rewrite <- !app_assoc.
Qed.

(* ===================================================================== *)
(** ** More about the search executor *)
(* ===================================================================== *)

(** What the handlers of [_post_advanced_query] do with an exception,
    when nothing is pending. *)
Lemma handlers_run `{Runtime} (e : exn) (t : list event) (h : list pyset) :
  (if is_KeyboardInterrupt e then
     _echo "Caught CTRL-C. Rerun surveyor" DEFAULT
   else if is_Exception e then
     _echo ("There was an exception " ++ str_exn e) DEFAULT ;;
     log_exception e
   else raise e) (mkWorld None t h)
  = (Ret tt, mkWorld None (t ++ undecodable_reports e)%list h).
Proof.
  unfold undecodable_reports.
  destruct e; cbn [is_KeyboardInterrupt is_Exception];
    try rewrite bind_run; unfold _echo, log_exception; rewrite !call_quiet;
    now rewrite <- ?app_assoc.
Qed.

Lemma undecodable_reports_diagnostic `{Runtime} (e : exn) :
  Forall (fun ev => is_diagnostic ev = true) (undecodable_reports e)
  /\ length (undecodable_reports e) <= 2.
Proof.
  unfold undecodable_reports. destruct (is_Exception e); split;
    repeat constructor.
Qed.

Lemma silent_ret {A : Type} (a : A) : silent (ret a).
Proof.
  intros t h. now exists (Ret a), h.
Qed.

Lemma silent_lift {A : Type} (o : outcome A) : silent (lift o).
Proof.
  intros t h. now exists o, h.
Qed.

Lemma silent_tick : silent tick.
Proof.
  intros t h. now exists (Ret tt), h.
Qed.

Lemma silent_bind {A B : Type} (m : M A) (k : A -> M B) :
  silent m -> (forall a, silent (k a)) -> silent (bind m k).
Proof.
  intros Hm Hk t h. rewrite bind_run. destruct (Hm t h) as (o & h' & ->).
  destruct o as [a|e]; [apply Hk | now exists (Raise e), h'].
Qed.

Lemma silent_set_add (ref : nat) (r : Result) : silent (set_add ref r).
Proof.
  intros t h. unfold set_add. destruct (Result_hashable r); cbn; eauto.
Qed.

Lemma silent_for_each {A : Type} (xs : list A) (body : A -> M unit) :
  (forall x, silent (body x)) -> silent (for_each xs body).
Proof.
  intros Hbody. unfold for_each. induction xs as [|x xs IH]; cbn [for_in].
  - apply silent_bind; [apply silent_tick | intros; apply silent_ret].
  - apply silent_bind; [apply silent_tick | intros _].
    apply silent_bind; [apply Hbody | intros []; exact IH].
Qed.

(** The statements under [try:], with nothing pending: one post, then at
    most the diagnostic of a status that is not a success, and that only
    when they end well. *)
Lemma _post_advanced_query_try_quiet `{Runtime}
    (requests_post : string -> strdict -> strdict -> outcome Response)
    (ref : nat) (data headers : strdict) (t : list event) (h : list pyset) :
  exists o h' evs,
    _post_advanced_query_try requests_post ref data headers (mkWorld None t h)
    = (o, mkWorld None (t ++ Post advanced_query_url data headers :: evs)%list h')
    /\ Forall (fun ev => is_diagnostic ev = true) evs
    /\ length evs <= 1
    /\ (forall e, o = Raise e -> evs = []).
Proof.
  unfold _post_advanced_query_try. fold advanced_query_url.
  rewrite bind_run, call_quiet, bind_run. unfold lift at 1.
  destruct (requests_post advanced_query_url data headers) as [response|e].
  2:{ exists (Raise e), h, []. repeat split; auto. }
  destruct (status_code response =? 200)%Z.
  - assert (Hs : silent
              (body <- lift (response_json response) ;;
               rows <- lift (getitem body "Results") ;;
               rows0 <- lift (iter_json rows) ;;
               for_each rows0 (fun res =>
                 device <- lift (getitem res "DeviceName") ;;
                 account <- lift (getitem res "AccountName") ;;
                 command_line <- lift (getitem res "ProcessCommandLine") ;;
                 path <- lift (getitem res "FolderPath") ;;
                 timestamp <- lift (getitem res "Timestamp") ;;
                 set_add ref (mkResult device account command_line path [timestamp])))).
    { repeat (apply silent_bind; [apply silent_lift | intros ?]).
      apply silent_for_each. intros res.
      repeat (apply silent_bind; [apply silent_lift | intros ?]).
      apply silent_set_add. }
    destruct (Hs (t ++ [Post advanced_query_url data headers])%list h) as (o & h' & Hrun).
    exists o, h', []. split; [exact Hrun|]. repeat split; auto.
  - rewrite bind_run. unfold lift at 1.
    destruct (response_json response) as [body|e].
    + unfold _echo. rewrite call_quiet. eexists (Ret tt), h, [_].
      split; [now rewrite <- app_assoc|].
      split; [now repeat constructor|]. split; [cbn; lia | discriminate].
    + exists (Raise e), h, []. repeat split; auto.
Qed.

(** X9. With nothing pending, [_post_advanced_query] always returns:
    whatever the transport does, no exception leaves it.  It posts once,
    to the advanced-query service, with the data and the headers it was
    given, and never again; all else it does is report, at most two
    diagnostics. *)
Theorem _post_advanced_query_posts_once `{Runtime}
    (requests_post : string -> strdict -> strdict -> outcome Response)
    (data headers : strdict) (t : list event) (h : list pyset) :
  exists out reports h',
    _post_advanced_query requests_post data headers (mkWorld None t h)
    = (Ret out,
       mkWorld None
         (t ++ Post "https://api.securitycenter.microsoft.com/api/advancedqueries/run"
                 data headers :: reports)%list
         h')
    /\ Forall (fun ev => is_diagnostic ev = true) reports
    /\ length reports <= 2.
Proof.
  unfold _post_advanced_query. rewrite bind_run, new_set_run, bind_run, catch_run.
  destruct (_post_advanced_query_try_quiet requests_post (length h) data headers t
              (h ++ [[]])%list) as (o & h' & evs & Hrun & Hdiag & Hlen & Hnil).
  rewrite Hrun. destruct o as [[]|e].
  - unfold list_of_set. cbn [heap]. eexists _, evs, h'.
    split; [reflexivity|]. split; [exact Hdiag | lia].
  - rewrite (Hnil e eq_refl), handlers_run. unfold list_of_set. cbn [heap].
    destruct (undecodable_reports_diagnostic e) as [Hd Hl].
    eexists _, (undecodable_reports e), h'. split; [|split; assumption].
    now rewrite <- app_assoc.
Qed.

(** X10. When the transport raises an [Exception] (no connection, a
    time-out), [_post_advanced_query] returns the empty list, having
    reported the exception and handed it to the log. *)
Theorem transport_failure_gives_nothing `{Runtime}
    (requests_post : string -> strdict -> strdict -> outcome Response)
    (data headers : strdict) (e : exn) (t : list event) (h : list pyset) :
  requests_post advanced_query_url data headers = Raise e ->
  is_Exception e = true ->
  _post_advanced_query requests_post data headers (mkWorld None t h)
  = (Ret [],
     mkWorld None
       (t ++ [Post advanced_query_url data headers;
              Echo ("There was an exception " ++ str_exn e) DEFAULT;
              LogException e])%list
       (h ++ [[]])%list).
Proof.
  intros Hpost He.
  unfold _post_advanced_query. rewrite bind_run, new_set_run, bind_run, catch_run.
  unfold _post_advanced_query_try. fold advanced_query_url.
  rewrite bind_run, call_quiet, bind_run. unfold lift at 1. rewrite Hpost.
  rewrite handlers_run. unfold undecodable_reports. rewrite He.
  unfold list_of_set. cbn [heap]. rewrite nth_last, iter_set_nil.
  now rewrite <- app_assoc.
Qed.

Lemma transport_failure_gives_nothing_witness :
  is_Exception RequestException = true
  /\ _post_advanced_query (runtime := sample_runtime) (fun _ _ _ => Raise RequestException)
       [("Query", "DeviceEvents")] [] (start None)
     = (Ret [],
        mkWorld None
          [ Post advanced_query_url [("Query", "DeviceEvents")] [];
            Echo "There was an exception connection failed" DEFAULT;
            LogException RequestException ]
          [[]]).
Proof.
  split; [reflexivity|].
  apply (@transport_failure_gives_nothing sample_runtime
           (fun _ _ _ => Raise RequestException)
           [("Query", "DeviceEvents")] [] RequestException [] []); reflexivity.
Defined.

(** X11. A response with status 200 from which no rows can be read (the
    body is not JSON, is not an object, has no member [Results], or that
    member cannot be iterated) gives the empty list; the exception is
    reported and handed to the log. *)
Theorem unreadable_success_gives_nothing `{Runtime}
    (requests_post : string -> strdict -> strdict -> outcome Response)
    (data headers : strdict) (response : Response) (e : exn)
    (t : list event) (h : list pyset) :
  requests_post advanced_query_url data headers = Ret response ->
  status_code response = 200%Z ->
  response_rows response = Raise e ->
  is_Exception e = true ->
  _post_advanced_query requests_post data headers (mkWorld None t h)
  = (Ret [],
     mkWorld None
       (t ++ [Post advanced_query_url data headers;
              Echo ("There was an exception " ++ str_exn e) DEFAULT;
              LogException e])%list
       (h ++ [[]])%list).
Proof.
  intros Hpost Hstatus Hrows He.
  unfold _post_advanced_query. rewrite bind_run, new_set_run, bind_run, catch_run.
  unfold _post_advanced_query_try. fold advanced_query_url.
  rewrite bind_run, call_quiet, bind_run. unfold lift at 1. rewrite Hpost, Hstatus.
  cbn [Z.eqb Pos.eqb].
  assert (Htry :
    (body <- lift (response_json response) ;;
     rows <- lift (getitem body "Results") ;;
     rows0 <- lift (iter_json rows) ;;
     for_each rows0 (fun res =>
       device <- lift (getitem res "DeviceName") ;;
       account <- lift (getitem res "AccountName") ;;
       command_line <- lift (getitem res "ProcessCommandLine") ;;
       path <- lift (getitem res "FolderPath") ;;
       timestamp <- lift (getitem res "Timestamp") ;;
       set_add (length h) (mkResult device account command_line path [timestamp])))
      (mkWorld None (t ++ [Post advanced_query_url data headers])%list (h ++ [[]])%list)
    = (Raise e,
       mkWorld None (t ++ [Post advanced_query_url data headers])%list (h ++ [[]])%list)).
  { unfold response_rows in Hrows.
    rewrite bind_run. unfold lift at 1.
    destruct (response_json response) as [body|x]; [|now injection Hrows as ->].
    rewrite bind_run. unfold lift at 1.
    destruct (getitem body "Results") as [results|x]; [|now injection Hrows as ->].
    rewrite bind_run. unfold lift at 1. now rewrite Hrows. }
  rewrite Htry, handlers_run. unfold undecodable_reports. rewrite He.
  unfold list_of_set. cbn [heap]. rewrite nth_last, iter_set_nil.
  now rewrite <- app_assoc.
Qed.

Lemma unreadable_success_gives_nothing_witness :
  response_rows (mkResponse 200 (Ret (JDict [("Stats", JNull)])))
  = Raise (KeyError "Results")
  /\ _post_advanced_query (runtime := sample_runtime)
       (fun _ _ _ => Ret (mkResponse 200 (Ret (JDict [("Stats", JNull)]))))
       [("Query", "DeviceEvents")] [] (start None)
     = (Ret [],
        mkWorld None
          [ Post advanced_query_url [("Query", "DeviceEvents")] [];
            Echo "There was an exception 'Results'" DEFAULT;
            LogException (KeyError "Results") ]
          [[]]).
Proof.
  split; [reflexivity|].
  apply (@unreadable_success_gives_nothing sample_runtime
           (fun _ _ _ => Ret (mkResponse 200 (Ret (JDict [("Stats", JNull)]))))
           [("Query", "DeviceEvents")] []
           (mkResponse 200 (Ret (JDict [("Stats", JNull)])))
           (KeyError "Results") [] []); reflexivity.
Defined.

(** One turn of the loop over the rows, for a row that is not well
    formed: it lacks a column, or a column holds a list or an object, or
    it is no object at all.  The turn raises and changes nothing. *)
Lemma row_turn_malformed (res : json) :
  (forall r, ~ well_formed_row res r) ->
  exists e,
    is_Exception e = true
    /\ forall ref w,
         (device <- lift (getitem res "DeviceName") ;;
          account <- lift (getitem res "AccountName") ;;
          command_line <- lift (getitem res "ProcessCommandLine") ;;
          path <- lift (getitem res "FolderPath") ;;
          timestamp <- lift (getitem res "Timestamp") ;;
          set_add ref (mkResult device account command_line path [timestamp])) w
         = (Raise e, w).
Proof.
  intros Hbad. unfold well_formed_row, result_of_row in Hbad.
  destruct res as [| | | | |columns];
    try (exists TypeError; split; [reflexivity | intros ref w; reflexivity]).
  cbn [getitem].
  destruct (lookup "DeviceName" columns) as [d|];
    [|eexists; split; [|intros ref w; reflexivity]; reflexivity].
  destruct (lookup "AccountName" columns) as [a|];
    [|eexists; split; [|intros ref w; reflexivity]; reflexivity].
  destruct (lookup "ProcessCommandLine" columns) as [c|];
    [|eexists; split; [|intros ref w; reflexivity]; reflexivity].
  destruct (lookup "FolderPath" columns) as [p|];
    [|eexists; split; [|intros ref w; reflexivity]; reflexivity].
  destruct (lookup "Timestamp" columns) as [ts|];
    [|eexists; split; [|intros ref w; reflexivity]; reflexivity].
  destruct (Result_hashable (mkResult d a c p [ts])) eqn:Hhash.
  { exfalso. apply (Hbad (mkResult d a c p [ts])). now split. }
  exists TypeError. split; [reflexivity|]. intros ref w.
  unfold lift, set_add. cbn [bind Monad_M]. now rewrite Hhash.
Qed.

(** The loop over the rows stops at the first row that is not well
    formed, with the rows before it in the set. *)
Lemma rows_loop_malformed (good : list json) (rs : list Result) (bad : json)
    (rest : list json) :
  Forall2 well_formed_row good rs ->
  (forall r, ~ well_formed_row bad r) ->
  exists e,
    is_Exception e = true
    /\ forall (t : list event) (h : list pyset) (s : pyset),
         for_each (good ++ bad :: rest)%list (fun res =>
           device <- lift (getitem res "DeviceName") ;;
           account <- lift (getitem res "AccountName") ;;
           command_line <- lift (getitem res "ProcessCommandLine") ;;
           path <- lift (getitem res "FolderPath") ;;
           timestamp <- lift (getitem res "Timestamp") ;;
           set_add (length h) (mkResult device account command_line path [timestamp]))
           (mkWorld None t (h ++ [s])%list)
         = (Raise e, mkWorld None t (h ++ [collect rs s])%list).
Proof.
  intros Hgood Hbad.
  destruct (row_turn_malformed Hbad) as (e & He & Hturn).
  exists e. split; [exact He|].
  induction Hgood as [|res r good rs Hrow _ IH]; intros t h s.
  - cbn [app]. rewrite for_each_cons. unfold tick. cbn [sigint]. cbv beta.
    now rewrite Hturn.
  - cbn [app]. rewrite for_each_cons. unfold tick. cbn [sigint]. cbv beta.
    rewrite (row_turn None t h s Hrow). apply IH.
Qed.

(** The list made of the set of the results of well-formed rows: no two
    members are equal, every row has a member equal to its result, and
    every member is the result of a row. *)
Lemma list_of_collected `{Runtime} (rows : list json) (rs : list Result) :
  Forall2 well_formed_row rows rs ->
  pairwise_distinct (iter_set (collect rs []))
  /\ (forall r, In r rs ->
       exists x, In x (iter_set (collect rs [])) /\ Result_eqb r x = true)
  /\ (forall x, In x (iter_set (collect rs [])) -> In x rs).
Proof.
  intros Hrows. assert (Hperm := iter_set_perm (collect rs [])).
  split; [|split].
  - apply pairwise_distinct_Permutation with (l := collect rs []).
    + now apply Permutation_sym.
    + now apply pairwise_distinct_collect.
  - intros r Hin.
    assert (Hhash : Forall (fun x => Result_hashable x = true) rs).
    { clear -Hrows. induction Hrows as [|res r rows rs [_ Hr] _ IH]; constructor; auto. }
    destruct (proj1 (existsb_exists _ _) (@collect_has r rs [] Hhash Hin))
      as (x & Hx & Heq).
    exists x. split; [|exact Heq].
    apply Permutation_in with (l := collect rs []);
      [now apply Permutation_sym | exact Hx].
  - intros x Hin. apply (Permutation_in x Hperm) in Hin.
    apply collect_from in Hin as [[]|Hin]. exact Hin.
Qed.

(** X12. When a row of a successful response is not well formed, the
    executor stops there: it reports the exception, hands it to the log,
    and returns the results of the rows before it, not the empty list.
    The list returned has a member equal to the result of each earlier
    row, every member is the result of an earlier row, and no two members
    are equal; so it is not empty when there is an earlier row.  The rows
    after the malformed one are not read. *)
Theorem malformed_row_keeps_earlier_results `{Runtime}
    (requests_post : string -> strdict -> strdict -> outcome Response)
    (data headers : strdict) (members : list (string * json))
    (good : list json) (rs : list Result) (bad : json) (rest : list json)
    (t : list event) (h : list pyset) :
  requests_post advanced_query_url data headers
  = Ret (mkResponse 200 (Ret (JDict members))) ->
  lookup "Results" members = Some (JList (good ++ bad :: rest)%list) ->
  Forall2 well_formed_row good rs ->
  (forall r, ~ well_formed_row bad r) ->
  exists e out,
    is_Exception e = true
    /\ _post_advanced_query requests_post data headers (mkWorld None t h)
       = (Ret out,
          mkWorld None
            (t ++ [Post advanced_query_url data headers;
                   Echo ("There was an exception " ++ str_exn e) DEFAULT;
                   LogException e])%list
            (h ++ [collect rs []])%list)
    /\ pairwise_distinct out
    /\ (forall r, In r rs -> exists x, In x out /\ Result_eqb r x = true)
    /\ (forall x, In x out -> In x rs)
    /\ (good <> [] -> out <> []).
Proof.
  intros Hpost Hresults Hgood Hbad.
  destruct (rows_loop_malformed rest Hgood Hbad) as (e & He & Hloop).
  destruct (list_of_collected Hgood) as (Hdistinct & Hall & Hfrom).
  exists e, (iter_set (collect rs [])). split; [exact He|].
  split; [|split; [exact Hdistinct|split; [exact Hall|split; [exact Hfrom|]]]].
  - unfold _post_advanced_query. rewrite bind_run, new_set_run, bind_run, catch_run.
    unfold _post_advanced_query_try. fold advanced_query_url.
    rewrite bind_run, call_quiet, bind_run. unfold lift at 1. rewrite Hpost.
    cbn [status_code Z.eqb Pos.eqb].
    rewrite bind_run. unfold lift at 1. cbn [response_json].
    rewrite bind_run. unfold lift at 1. cbn [getitem]. rewrite Hresults.
    rewrite bind_run. unfold lift at 1. cbn [iter_json].
    rewrite Hloop, handlers_run. unfold undecodable_reports. rewrite He.
    unfold list_of_set. cbn [heap]. rewrite nth_last.
    now rewrite <- app_assoc.
  - intros Hsome Hnone.
    destruct Hgood as [|res r good rs _ _]; [now apply Hsome|].
    destruct (Hall r (or_introl eq_refl)) as (x & Hx & _).
    rewrite Hnone in Hx. exact Hx.
Qed.

Lemma malformed_row_keeps_earlier_results_witness :
  (forall r, ~ well_formed_row (JDict [("DeviceName", JStr "WIN12")]) r)
  /\ fst (_post_advanced_query (runtime := sample_runtime)
            (fun _ _ _ =>
               Ret (mkResponse 200
                      (Ret (JDict [("Results",
                                    JList [demo_row "WIN10";
                                           JDict [("DeviceName", JStr "WIN12")];
                                           demo_row "WIN11"])]))))
            [("Query", "DeviceProcessEvents")] [] (start None))
     = Ret [demo_result "WIN10"]
  /\ exists e out,
       is_Exception e = true
       /\ _post_advanced_query (runtime := sample_runtime)
            (fun _ _ _ =>
               Ret (mkResponse 200
                      (Ret (JDict [("Results",
                                    JList [demo_row "WIN10";
                                           JDict [("DeviceName", JStr "WIN12")];
                                           demo_row "WIN11"])]))))
            [("Query", "DeviceProcessEvents")] [] (start None)
          = (Ret out,
             mkWorld None
               [ Post advanced_query_url [("Query", "DeviceProcessEvents")] [];
                 Echo ("There was an exception " ++ @str_exn sample_runtime e) DEFAULT;
                 LogException e ]
               [collect [demo_result "WIN10"] []])
       /\ pairwise_distinct out
       /\ (forall r, In r [demo_result "WIN10"] ->
            exists x, In x out /\ Result_eqb r x = true)
       /\ (forall x, In x out -> In x [demo_result "WIN10"])
       /\ ([demo_row "WIN10"] <> [] -> out <> []).
Proof.
  assert (Hbad : forall r, ~ well_formed_row (JDict [("DeviceName", JStr "WIN12")]) r).
  { intros r [Hrow _]. discriminate Hrow. }
  split; [exact Hbad|]. split; [reflexivity|].
  apply (@malformed_row_keeps_earlier_results sample_runtime
           (fun _ _ _ =>
              Ret (mkResponse 200
                     (Ret (JDict [("Results",
                                   JList [demo_row "WIN10";
                                          JDict [("DeviceName", JStr "WIN12")];
                                          demo_row "WIN11"])]))))
           [("Query", "DeviceProcessEvents")] []
           [("Results",
             JList [demo_row "WIN10"; JDict [("DeviceName", JStr "WIN12")];
                    demo_row "WIN11"])]
           [demo_row "WIN10"] [demo_result "WIN10"]
           (JDict [("DeviceName", JStr "WIN12")]) [demo_row "WIN11"] [] []);
    [reflexivity | reflexivity | repeat constructor | exact Hbad].
Defined.

Lemma collect_distinct (rs : list Result) (s : pyset) :
  pairwise_distinct (s ++ rs)%list -> collect rs s = (s ++ rs)%list.
Proof.
  revert s. induction rs as [|r rs IH]; intros s Hd; cbn [collect fold_left].
  - now rewrite app_nil_r.
  - fold (collect rs (set_insert r s)).
    assert (Hnew : existsb (Result_eqb r) s = false).
    { clear IH. induction s as [|x s IHs]; [reflexivity|].
      cbn [app pairwise_distinct] in Hd. destruct Hd as [Hx Hd].
      apply Forall_app in Hx as [_ Hx]. inversion Hx as [|? ? Hrx _]; subst.
      cbn [existsb]. rewrite Hrx. now apply IHs. }
    unfold set_insert. rewrite Hnew. rewrite IH; rewrite <- app_assoc; [reflexivity|].
    exact Hd.
Qed.

(** X13. No result is lost: when the rows of a successful response are
    well formed and no two of them give equal results, the list returned
    holds the result of every row, each once, so it is as long as the list
    of rows. *)
Theorem distinct_rows_all_returned `{Runtime}
    (requests_post : string -> strdict -> strdict -> outcome Response)
    (data headers : strdict) (members : list (string * json))
    (rows : list json) (rs : list Result) (t : list event) (h : list pyset) :
  requests_post advanced_query_url data headers
  = Ret (mkResponse 200 (Ret (JDict members))) ->
  lookup "Results" members = Some (JList rows) ->
  Forall2 well_formed_row rows rs ->
  pairwise_distinct rs ->
  exists out,
    fst (_post_advanced_query requests_post data headers (mkWorld None t h)) = Ret out
    /\ Permutation out rs
    /\ length out = length rows.
Proof.
  intros Hpost Hresults Hrows Hdistinct.
  exists (iter_set (collect rs [])).
  erewrite _post_advanced_query_rows by eassumption.
  rewrite (collect_distinct rs []) by exact Hdistinct. cbn [app fst].
  split; [reflexivity|]. split; [apply iter_set_perm|].
  rewrite (Permutation_length (iter_set_perm rs)).
  symmetry. apply (Forall2_length Hrows).
Qed.

Lemma distinct_rows_all_returned_witness :
  pairwise_distinct [demo_result "WIN10"; demo_result "WIN11"]
  /\ exists out,
       fst (_post_advanced_query (runtime := sample_runtime)
              (fun _ _ _ =>
                 Ret (mkResponse 200
                        (Ret (JDict [("Results",
                                      JList [demo_row "WIN10"; demo_row "WIN11"])]))))
              [("Query", "DeviceProcessEvents")] [] (start None))
       = Ret out
       /\ Permutation out [demo_result "WIN10"; demo_result "WIN11"]
       /\ length out = length [demo_row "WIN10"; demo_row "WIN11"].
Proof.
  assert (Hd : pairwise_distinct [demo_result "WIN10"; demo_result "WIN11"]).
  { cbn. repeat split; repeat constructor. }
  split; [exact Hd|].
  apply (@distinct_rows_all_returned sample_runtime
           (fun _ _ _ =>
              Ret (mkResponse 200
                     (Ret (JDict [("Results",
                                   JList [demo_row "WIN10"; demo_row "WIN11"])]))))
           [("Query", "DeviceProcessEvents")] []
           [("Results", JList [demo_row "WIN10"; demo_row "WIN11"])]
           [demo_row "WIN10"; demo_row "WIN11"]
           [demo_result "WIN10"; demo_result "WIN11"] [] []);
    [reflexivity | reflexivity | repeat constructor | exact Hd].
Defined.

Lemma keeps_all_bind {A B : Type} (P : Result -> Prop) (ref : nat)
    (m : M A) (k : A -> M B) :
  keeps_all P ref m -> (forall a, keeps_all P ref (k a)) -> keeps_all P ref (bind m k).
Proof.
  intros Hm Hk w Hw. rewrite bind_run. specialize (Hm w Hw).
  destruct (m w) as [[a|e] w']; cbn [snd] in *; [now apply Hk | exact Hm].
Qed.

Lemma keeps_all_catch {A : Type} (P : Result -> Prop) (ref : nat)
    (m : M A) (handler : exn -> M A) :
  keeps_all P ref m -> (forall e, keeps_all P ref (handler e)) ->
  keeps_all P ref (catch m handler).
Proof.
  intros Hm Hh w Hw. rewrite catch_run. specialize (Hm w Hw).
  destruct (m w) as [[a|e] w']; cbn [snd] in *; [exact Hm | now apply Hh].
Qed.

Lemma keeps_all_lift {A : Type} (P : Result -> Prop) (ref : nat) (o : outcome A) :
  keeps_all P ref (lift o).
Proof.
  intros w Hw. exact Hw.
Qed.

Lemma keeps_all_call (P : Result -> Prop) (ref : nat) (e : event) :
  keeps_all P ref (call e).
Proof.
  intros w Hw. unfold call. rewrite bind_run. unfold tick.
  destruct (sigint w) as [[|n]|]; exact Hw.
Qed.

Lemma keeps_all_for_each {A : Type} (P : Result -> Prop) (ref : nat)
    (xs : list A) (body : A -> M unit) :
  (forall x, keeps_all P ref (body x)) -> keeps_all P ref (for_each xs body).
Proof.
  intros Hbody. unfold for_each.
  induction xs as [|x xs IH]; cbn [for_in].
  - intros w Hw. rewrite bind_run. unfold tick.
    destruct (sigint w) as [[|n]|]; exact Hw.
  - apply keeps_all_bind.
    + intros w Hw. unfold tick. destruct (sigint w) as [[|n]|]; exact Hw.
    + intros _. apply keeps_all_bind; [apply Hbody | intros []; exact IH].
Qed.

Lemma keeps_all_set_add (P : Result -> Prop) (ref : nat) (r : Result) :
  (Result_hashable r = true -> P r) -> keeps_all P ref (set_add ref r).
Proof.
  intros Hr w Hw. unfold set_add.
  destruct (Result_hashable r); cbn [snd heap]; [|exact Hw].
  specialize (Hr eq_refl). revert Hw. generalize (heap w). clear w.
  intros h. revert ref. induction h as [|s h IH]; intros [|ref]; cbn [update nth]; trivial.
  - intros Hs. unfold set_insert. destruct (existsb (Result_eqb r) s); [exact Hs|].
    apply Forall_app. split; [exact Hs | now repeat constructor].
  - apply IH.
Qed.

(** X14. Every result that [_post_advanced_query] returns, whatever the
    transport answers and whenever the user interrupts, carries exactly as
    many extra columns as [get_other_row_headers] names (one, the
    timestamp), and all its columns are hashable values: no list and no
    object gets into a result. *)
Theorem results_match_other_row_headers `{Runtime}
    (requests_post : string -> strdict -> strdict -> outcome Response)
    (data headers : strdict) (w : world) (out : list Result) :
  fst (_post_advanced_query requests_post data headers w) = Ret out ->
  Forall (fun r => length (other_data r) = length get_other_row_headers
                   /\ Result_hashable r = true) out.
Proof.
  set (P := fun r => length (other_data r) = length get_other_row_headers
                     /\ Result_hashable r = true).
  destruct w as [sg t h].
  unfold _post_advanced_query. rewrite bind_run, new_set_run, bind_run.
  set (w0 := mkWorld sg t (h ++ [[]])%list).
  assert (Hkeeps : keeps_all P (length h)
            (catch (_post_advanced_query_try requests_post (length h) data headers)
               (fun e =>
                  if is_KeyboardInterrupt e then
                    _echo "Caught CTRL-C. Rerun surveyor" DEFAULT
                  else if is_Exception e then
                    _echo ("There was an exception " ++ str_exn e) DEFAULT ;;
                    log_exception e
                  else raise e))).
  { apply keeps_all_catch.
    - unfold _post_advanced_query_try.
      apply keeps_all_bind; [apply keeps_all_call | intros _].
      apply keeps_all_bind; [apply keeps_all_lift | intros response].
      destruct (status_code response =? 200)%Z.
      + repeat (apply keeps_all_bind; [apply keeps_all_lift | intros ?]).
        apply keeps_all_for_each. intros res.
        repeat (apply keeps_all_bind; [apply keeps_all_lift | intros ?]).
        apply keeps_all_set_add. intros Hhash. now split.
      + apply keeps_all_bind; [apply keeps_all_lift | intros body].
        apply keeps_all_call.
    - intros e. destruct (is_KeyboardInterrupt e); [apply keeps_all_call|].
      destruct (is_Exception e).
      + apply keeps_all_bind; [apply keeps_all_call | intros _].
        apply keeps_all_call.
      + intros w1 Hw1. exact Hw1. }
  specialize (Hkeeps w0). unfold w0 in Hkeeps at 1. cbn [heap] in Hkeeps.
  rewrite nth_last in Hkeeps. specialize (Hkeeps (Forall_nil _)).
  match goal with
  | |- fst (match ?run with _ => _ end) = _ -> _ =>
      destruct run as [[[]|e] w2]
  end; [|discriminate].
  unfold list_of_set. cbn [fst snd] in *. intros [= <-].
  apply (Permutation_Forall (Permutation_sym (iter_set_perm _))). exact Hkeeps.
Qed.

Lemma results_match_other_row_headers_witness :
  Forall (fun r => length (other_data r) = length get_other_row_headers
                   /\ Result_hashable r = true)
    [demo_result "WIN10"; demo_result "WIN11"].
Proof.
  apply (@results_match_other_row_headers sample_runtime demo_transport
           [("Query", "DeviceProcessEvents")] [] (start None)).
  reflexivity.
Defined.

(* ===================================================================== *)
(** ** The token service *)
(* ===================================================================== *)

(** X15. [_get_aad_token] catches nothing.  It asks the token endpoint of
    the tenant, with the application and its secret in the body, and
    returns a token only when the service answers with a status outside
    400..599 and a JSON object that has [access_token]; in every other
    case the exception leaves the function.  All it reports is one debug
    line, which names the tenant and the application and not the
    secret. *)
Theorem _get_aad_token_success (requests_get : string -> strdict -> outcome Response)
    (tenant_id app_id app_secret : string) (t : list event) (h : list pyset) :
  trace (snd (_get_aad_token requests_get tenant_id app_id app_secret
                (mkWorld None t h)))
  = (t ++ [LogDebug ("Acquiring AAD access token for tenant " ++ tenant_id
                     ++ " and app " ++ app_id)])%list
  /\ forall token,
       fst (_get_aad_token requests_get tenant_id app_id app_secret
              (mkWorld None t h)) = Ret token
       <-> exists response body,
             requests_get ("https://login.windows.net/" ++ tenant_id ++ "/oauth2/token")
               [ ("resource", "https://api.securitycenter.windows.com");
                 ("client_id", app_id);
                 ("client_secret", app_secret);
                 ("grant_type", "client_credentials") ]
             = Ret response
             /\ (status_code response < 400 \/ 600 <= status_code response)%Z
             /\ response_json response = Ret body
             /\ getitem body "access_token" = Ret token.
Proof.
  unfold _get_aad_token, log_debug, call, tick, lift, raise_for_status.
  cbn [bind Monad_M sigint trace heap].
  destruct (requests_get _ _) as [response|e]; cbn [fst snd trace].
  2:{ split; [reflexivity|]. intros token. split; [discriminate|].
      intros (r & b & Hget & _). discriminate Hget. }
  destruct ((400 <=? status_code response) && (status_code response <? 600))%Z
    eqn:Hstatus; cbn [fst snd trace].
  { split; [reflexivity|]. intros token. split; [discriminate|].
    intros (r & b & [= <-] & Hok & _).
    apply andb_prop in Hstatus as [H1 H2]. lia. }
  destruct (response_json response) as [body|e] eqn:Hbody; cbn [fst snd trace].
  2:{ split; [reflexivity|]. intros token. split; [discriminate|].
      intros (r & b & [= <-] & _ & Hb & _). congruence. }
  split; [reflexivity|].
  intros token. split.
  - intros Htok. exists response, body. repeat split; auto.
    apply andb_false_iff in Hstatus as [H1|H1]; lia.
  - intros (r & b & [= <-] & _ & Hb & Htok). congruence.
Qed.

(* ===================================================================== *)
(** ** The catalogue converter *)
(* ===================================================================== *)

Lemma drop_last_two_step (c d e : ascii) (r : string) :
  drop_last_two (String c (String d (String e r)))
  = String c (drop_last_two (String d (String e r))).
Proof.
  reflexivity.
Qed.

Lemma drop_last_two_app (s : string) (a b : ascii) :
  drop_last_two (s ++ String a (String b "")) = s.
Proof.
  induction s as [|c s IH]; [reflexivity|].
  destruct s as [|d s]; [reflexivity|].
  destruct s as [|e s]; cbn [append] in *; now rewrite drop_last_two_step, IH.
Qed.

Lemma fold_left_append {A : Type} (f : A -> string) (xs : list A) (out : string) :
  fold_left (fun out x => out ++ f x) xs out = out ++ String.concat "" (map f xs).
Proof.
  revert out. induction xs as [|x xs IH]; intros out.
  - cbn. now rewrite append_nil_r.
  - cbn [fold_left map]. now rewrite IH, concat_cons, append_assoc.
Qed.

Lemma concat_terminated {A : Type} (g : A -> string) (sep : string) (xs : list A) :
  xs <> [] ->
  String.concat "" (map (fun x => g x ++ sep) xs) = join sep (map g xs) ++ sep.
Proof.
  unfold join. induction xs as [|x xs IH]; [contradiction|]. intros _.
  destruct xs as [|y ys]; [reflexivity|].
  cbn [map]. rewrite concat_cons. cbn [map] in IH. rewrite IH by discriminate.
  cbn [String.concat]. now rewrite !append_assoc.
Qed.

Lemma str_split_nonempty (sep : ascii) (s : string) : str_split sep s <> [].
Proof.
  destruct s as [|c s]; [discriminate|]. cbn [str_split].
  destruct (Ascii.eqb c sep); [discriminate|].
  destruct (str_split sep s); discriminate.
Qed.

(** The lines of a list, as the script writes them: a line per item with
    a comma after each, and then the last comma cut. *)
Lemma lines_loop (g : string -> string) (items : list string) (out : string) :
  items <> [] ->
  drop_last_two
    (fold_left (fun out item =>
                  out ++ "      " ++ dquote ++ g item ++ dquote ++ "," ++ newline)
       items out)
  = out ++ quoted_lines (map g items).
Proof.
  intros Hitems.
  rewrite (fold_left_append
             (fun item => "      " ++ dquote ++ g item ++ dquote ++ "," ++ newline)).
  rewrite (map_ext _ (fun item => ("      " ++ dquote ++ g item ++ dquote)
                                  ++ "," ++ newline))
    by (intros item; same_string).
  rewrite (concat_terminated (fun item => "      " ++ dquote ++ g item ++ dquote)
             ("," ++ newline) Hitems).
  unfold quoted_lines. rewrite map_map.
  rewrite <- append_assoc. apply drop_last_two_app.
Qed.

Lemma length_append (a b : string) :
  String.length (a ++ b) = String.length a + String.length b.
Proof.
  induction a as [|c a IH]; cbn; [reflexivity | now rewrite IH].
Qed.

Lemma drop_last_two_append_r (a b : string) :
  2 <= String.length b -> drop_last_two (a ++ b) = a ++ drop_last_two b.
Proof.
  intros Hb. induction a as [|c a IH]; [reflexivity|].
  cbn [append]. rewrite <- IH.
  destruct (a ++ b) as [|d [|e r]] eqn:E; try reflexivity.
  - apply (f_equal String.length) in E. rewrite length_append in E. cbn in E. lia.
  - apply (f_equal String.length) in E. rewrite length_append in E. cbn in E. lia.
Qed.

(** Cut the last two characters of a text that ends in literal ones. *)
Ltac cut_last_two :=
  repeat rewrite append_assoc;
  repeat (rewrite drop_last_two_append_r
            by (rewrite ?length_append; cbn [String.length newline append]; lia));
  cbn [drop_last_two newline append].

Lemma fold_left_ext {A B : Type} (f g : A -> B -> A) (xs : list B) (a : A) :
  (forall a x, f a x = g a x) -> fold_left f xs a = fold_left g xs a.
Proof.
  intros Hfg. revert a. induction xs as [|x xs IH]; intros a; [reflexivity|].
  cbn [fold_left]. now rewrite Hfg, IH.
Qed.

(** One turn of the loop over the rows adds the entry of the row and a
    comma, whatever has been written before. *)
Lemma row_step (out : string) (row : Row) :
  (let out := out ++ "  " ++ dquote ++ Software row ++ dquote ++ ": " ++ "{" ++ newline in
   let out :=
     match Executables row with
     | Some (String _ _ as executables) =>
         let out := out ++ "    " ++ dquote ++ "process_name" ++ dquote ++ ": ["
                    ++ newline in
         let out :=
           fold_left (fun out process =>
             out ++ "      " ++ dquote ++ str_remove "034"%char process ++ dquote
             ++ "," ++ newline)
             (str_split ","%char executables) out in
         let out := drop_last_two out ++ newline in
         out ++ "    ]," ++ newline
     | _ => out
     end in
   let out :=
     match Domain row with
     | Some (String _ _ as domains) =>
         let out := out ++ "    " ++ dquote ++ "domain" ++ dquote ++ ": [" ++ newline in
         let out :=
           fold_left (fun out domain =>
             out ++ "      " ++ dquote ++ hd "" (str_split "/"%char domain) ++ dquote
             ++ "," ++ newline)
             (str_split ","%char domains) out in
         let out := drop_last_two out ++ newline in
         out ++ "    ]" ++ newline
     | _ => drop_last_two out ++ newline
     end in
   out ++ "  }," ++ newline)
  = out ++ entry_text row ++ "," ++ newline.
Proof.
  destruct row as [name executables domains].
  unfold entry_text, process_names, domain_names. cbn [Software Executables Domain].
  cbv zeta.
  destruct executables as [[|c e]|], domains as [[|c' d]|];
    repeat rewrite (lines_loop (str_remove "034"%char)) by apply str_split_nonempty;
    repeat rewrite (lines_loop (fun domain => hd "" (str_split "/"%char domain)))
      by apply str_split_nonempty;
    unfold list_block; cut_last_two;
    repeat first [rewrite append_assoc | progress cbn [append]]; reflexivity.
Qed.

(** X16. What the script prints, for a data frame with at least one row:
    an opening brace, the entries of the rows in order with a comma
    between them, a closing brace.  Each cut of the last two characters
    removes the comma after the last item; for a row with neither
    executables nor domains it removes the opening brace of the entry
    instead, and for a data frame with no row it removes the opening brace
    of the whole text. *)
Theorem rmm2def_layout (df : list Row) :
  rmm2def df
  = match df with
    | [] => newline ++ "}" ++ newline
    | _ :: _ =>
        "{" ++ newline ++ join ("," ++ newline) (map entry_text df) ++ newline
        ++ "}" ++ newline
    end.
Proof.
  unfold rmm2def. cbv zeta.
  rewrite (fold_left_ext _ (fun out row => out ++ entry_text row ++ "," ++ newline))
    by (intros out row; exact (row_step out row)).
  rewrite (fold_left_append (fun row => entry_text row ++ "," ++ newline)).
  destruct df as [|row df]; [reflexivity|].
  rewrite (concat_terminated entry_text ("," ++ newline)) by discriminate.
  replace (("{" ++ newline)
           ++ join ("," ++ newline) (map entry_text (row :: df)) ++ "," ++ newline)
    with ((("{" ++ newline) ++ join ("," ++ newline) (map entry_text (row :: df)))
          ++ String ","%char (String "010"%char ""))
    by (now rewrite append_assoc).
  rewrite drop_last_two_app.
  repeat first [rewrite append_assoc | progress cbn [append]]. reflexivity.
Qed.

Lemma str_remove_occurs (c : ascii) (s : string) : occurs c (str_remove c s) = false.
Proof.
  induction s as [|x s IH]; [reflexivity|]. cbn [str_remove].
  destruct (Ascii.eqb x c) eqn:E; [exact IH|]. cbn [occurs]. now rewrite E.
Qed.

Lemma str_split_pieces (sep : ascii) (s : string) :
  Forall (fun piece => occurs sep piece = false) (str_split sep s).
Proof.
  induction s as [|c s IH]; [now repeat constructor|]. cbn [str_split].
  destruct (Ascii.eqb c sep) eqn:E; [now constructor|].
  destruct (str_split sep s) as [|piece pieces]; [now repeat constructor; cbn; rewrite E|].
  inversion IH as [|? ? Hpiece Hpieces]; subst.
  constructor; [|exact Hpieces]. cbn [occurs]. now rewrite E.
Qed.

Lemma str_split_head (sep : ascii) (s : string) :
  occurs sep (hd "" (str_split sep s)) = false.
Proof.
  pose proof (str_split_pieces sep s) as Hp.
  destruct (str_split sep s) as [|piece pieces]; [reflexivity|].
  now inversion Hp.
Qed.

Lemma row_items_clean (row : Row) :
  clean_items "034"%char ","%char (process_names row)
  /\ clean_items "/"%char ","%char (domain_names row).
Proof.
  assert (Hremove : forall c d s, occurs d s = false -> occurs d (str_remove c s) = false).
  { intros c d s. induction s as [|x s IH]; [reflexivity|]. cbn [occurs str_remove].
    intros [Hx Hs]%orb_false_elim. destruct (Ascii.eqb x c); [now apply IH|].
    cbn [occurs]. now rewrite Hx, IH. }
  assert (Hhead : forall c d s, occurs d s = false ->
                                occurs d (hd "" (str_split c s)) = false).
  { intros c d s. induction s as [|x s IH]; [reflexivity|]. cbn [occurs str_split].
    intros [Hx Hs]%orb_false_elim. destruct (Ascii.eqb x c); [reflexivity|].
    specialize (IH Hs). destruct (str_split c s) as [|piece pieces]; cbn [hd occurs] in *;
      now rewrite Hx. }
  split; intros names.
  - unfold process_names. destruct (Executables row) as [[|c e]|]; try discriminate.
    intros [= <-]. split.
    + intros Hmap. apply map_eq_nil in Hmap.
      now apply (str_split_nonempty ","%char (String c e)).
    + apply Forall_map.
      apply (Forall_impl _ (P := fun p => occurs ","%char p = false));
        [|exact (str_split_pieces ","%char (String c e))].
      intros piece Hpiece. split; [apply str_remove_occurs | now apply Hremove].
  - unfold domain_names. destruct (Domain row) as [[|c d]|]; try discriminate.
    intros [= <-]. split.
    + intros Hmap. apply map_eq_nil in Hmap.
      now apply (str_split_nonempty ","%char (String c d)).
    + apply Forall_map.
      apply (Forall_impl _ (P := fun p => occurs ","%char p = false));
        [|exact (str_split_pieces ","%char (String c d))].
      intros piece Hpiece. split; [apply str_split_head | now apply Hhead].
Qed.

(** The text printed for a data frame with a first row, entry by entry. *)
Lemma rmm2def_entries (row : Row) (df : list Row) :
  rmm2def (row :: df)
  = "{" ++ newline
    ++ join ("," ++ newline) (map entry_of (map entry_of_row (row :: df)))
    ++ newline ++ "}" ++ newline.
Proof.
  rewrite map_map.
  change (fun x : Row => entry_of (entry_of_row x)) with entry_text.
  unfold rmm2def. cbv zeta.
  rewrite (fold_left_ext _ (fun out row => out ++ entry_text row ++ "," ++ newline))
    by (intros out r; exact (row_step out r)).
  rewrite (fold_left_append (fun row => entry_text row ++ "," ++ newline)).
  rewrite (concat_terminated entry_text ("," ++ newline)) by discriminate.
  replace (("{" ++ newline)
           ++ join ("," ++ newline) (map entry_text (row :: df)) ++ "," ++ newline)
    with ((("{" ++ newline) ++ join ("," ++ newline) (map entry_text (row :: df)))
          ++ String ","%char (String "010"%char ""))
    by (now rewrite append_assoc).
  rewrite drop_last_two_app.
  repeat first [rewrite append_assoc | progress cbn [append]]. reflexivity.
Qed.

(** X17. The items that the script writes are cleaned.  For a data frame
    with at least one row, the text that [rmm2def] prints is an opening
    brace, one entry for each row, in order and under the row's software
    name, and a closing brace; in every entry the names listed under
    [process_name] hold no double quote and no comma, the names listed
    under [domain] hold no slash and no comma, and a list that is written
    has at least one name, so that the cut after the loop always finds a
    comma to remove. *)
Theorem converter_items_clean (df : list Row) :
  df <> [] ->
  exists entries : list Entry,
    rmm2def df
    = "{" ++ newline ++ join ("," ++ newline) (map entry_of entries)
      ++ newline ++ "}" ++ newline
    /\ map software entries = map Software df
    /\ Forall (fun entry =>
                 clean_items "034"%char ","%char (processes entry)
                 /\ clean_items "/"%char ","%char (domains entry)) entries.
Proof.
  intros Hrows. destruct df as [|row df]; [now contradiction Hrows|].
  exists (map entry_of_row (row :: df)).
  split; [apply rmm2def_entries|]. split.
  - rewrite map_map. reflexivity.
  - apply Forall_map, Forall_forall. intros r _. exact (row_items_clean r).
Qed.

Lemma converter_items_clean_witness :
  rmm2def [mkRow "AnyDesk"
             (Some ("anydesk.exe," ++ dquote ++ "ad svc.exe" ++ dquote))
             (Some "anydesk.com/download,net.anydesk.com")]
  = "{" ++ newline
    ++ "  " ++ dquote ++ "AnyDesk" ++ dquote ++ ": {" ++ newline
    ++ "    " ++ dquote ++ "process_name" ++ dquote ++ ": [" ++ newline
    ++ "      " ++ dquote ++ "anydesk.exe" ++ dquote ++ "," ++ newline
    ++ "      " ++ dquote ++ "ad svc.exe" ++ dquote ++ newline
    ++ "    ]," ++ newline
    ++ "    " ++ dquote ++ "domain" ++ dquote ++ ": [" ++ newline
    ++ "      " ++ dquote ++ "anydesk.com" ++ dquote ++ "," ++ newline
    ++ "      " ++ dquote ++ "net.anydesk.com" ++ dquote ++ newline
    ++ "    ]" ++ newline
    ++ "  }" ++ newline
    ++ "}" ++ newline
  /\ exists entries : list Entry,
       rmm2def [mkRow "AnyDesk"
                  (Some ("anydesk.exe," ++ dquote ++ "ad svc.exe" ++ dquote))
                  (Some "anydesk.com/download,net.anydesk.com")]
       = "{" ++ newline ++ join ("," ++ newline) (map entry_of entries)
         ++ newline ++ "}" ++ newline
       /\ map software entries = ["AnyDesk"]
       /\ Forall (fun entry =>
                    clean_items "034"%char ","%char (processes entry)
                    /\ clean_items "/"%char ","%char (domains entry)) entries.
Proof.
  split; [reflexivity|].
  apply (@converter_items_clean
           [mkRow "AnyDesk"
              (Some ("anydesk.exe," ++ dquote ++ "ad svc.exe" ++ dquote))
              (Some "anydesk.com/download,net.anydesk.com")]).
  discriminate.
Defined.

(* ===================================================================== *)
(** ** More about construction *)
(* ===================================================================== *)

Lemma stored_iff (option : string) (options : strdict) :
  stored (optionxform option) options = true
  <-> exists spelling value,
        lower spelling = lower option /\ In (spelling, value) options.
Proof.
  unfold stored, optionxform. rewrite existsb_exists. split.
  - intros ([spelling value] & Hin & Heq). apply String.eqb_eq in Heq.
    now exists spelling, value.
  - intros (spelling & value & Heq & Hin). exists (spelling, value).
    split; [exact Hin|]. now apply String.eqb_eq.
Qed.

Lemma config_contains_iff (config : ConfigParser) (name : string) :
  config_contains config name = true
  <-> name = "DEFAULT" \/ lookup name config <> None.
Proof.
  unfold config_contains, has_section, _sections, default_section.
  destruct (String.eqb name "DEFAULT") eqn:Hname; cbn [orb].
  - apply String.eqb_eq in Hname. tauto.
  - apply String.eqb_neq in Hname.
    destruct (lookup name config).
    + split; [intros _; right; discriminate|reflexivity].
    + split; [discriminate|intros [?|?]; congruence].
Qed.

Lemma has_option_iff (config : ConfigParser) (name option : string) :
  name <> "" ->
  config_contains config name = true ->
  has_option config name option = true
  <-> exists spelling value,
        lower spelling = lower option
        /\ (In (spelling, value) (listed_options name config)
            \/ In (spelling, value) (listed_options "DEFAULT" config)).
Proof.
  intros Hname Hpresent.
  change (listed_options "DEFAULT" config) with (_defaults config).
  apply String.eqb_neq in Hname. unfold has_option. rewrite Hname. cbn [orb].
  unfold config_contains, has_section, _sections in *.
  unfold default_section in *.
  destruct (String.eqb name "DEFAULT") eqn:Hdefault.
  - apply String.eqb_eq in Hdefault. subst name.
    change (listed_options "DEFAULT" config) with (_defaults config).
    rewrite stored_iff. split.
    + intros (spelling & value & Heq & Hin). exists spelling, value. tauto.
    + intros (spelling & value & Heq & Hin). exists spelling, value. tauto.
  - cbn [orb] in Hpresent. unfold listed_options at 1.
    destruct (lookup name config) as [options|]; [|discriminate].
    rewrite orb_true_iff, !stored_iff. split.
    + intros [(spelling & value & Heq & Hin)|(spelling & value & Heq & Hin)];
        exists spelling, value; tauto.
    + intros (spelling & value & Heq & [Hin|Hin]);
        [left|right]; now exists spelling, value.
Qed.

(** X18. [_authenticate] returns exactly when the credential file is
    read without error, the profile is [DEFAULT] or a section of the
    file, and each of [tenantId], [appId] and [appSecret] is, letter
    case apart, the name of an option listed under the profile or under
    [DEFAULT].  In every case the world is as before: with the call of
    [_get_aad_token] commented out, authentication asks for no token
    and reports nothing. *)
Theorem authentication_succeeds_iff
    (config_read : string -> outcome ConfigParser)
    (name file : string) (w : world) :
  name <> "" ->
  snd (_authenticate config_read (mkDefenderForEndpoints name file) w) = w
  /\ (fst (_authenticate config_read (mkDefenderForEndpoints name file) w)
      = Ret tt
      <-> exists config,
            config_read file = Ret config
            /\ (name = "DEFAULT" \/ lookup name config <> None)
            /\ forall key,
                 In key ["tenantId"; "appId"; "appSecret"] ->
                 exists spelling value,
                   lower spelling = lower key
                   /\ (In (spelling, value) (listed_options name config)
                       \/ In (spelling, value)
                            (listed_options "DEFAULT" config))).
Proof.
  intros Hname.
  destruct (config_read file) as [config|x] eqn:Hread.
  2:{ unfold _authenticate. rewrite bind_run. cbn [creds_file]. unfold lift.
      rewrite Hread. cbn [fst snd]. split; [reflexivity|].
      split; [discriminate|]. intros (config & [=] & _). }
  rewrite (_authenticate_run _ name _ w Hread). cbn [fst snd].
  split; [reflexivity|].
  destruct (config_contains config name) eqn:Hpresent; cbn [negb].
  2:{ split; [discriminate|]. intros (c & [= <-] & Hc & _).
      apply config_contains_iff in Hc. congruence. }
  pose proof (has_option_iff config "tenantId" Hname Hpresent) as Htenant.
  pose proof (has_option_iff config "appId" Hname Hpresent) as Happ.
  pose proof (has_option_iff config "appSecret" Hname Hpresent) as Hsecret.
  destruct (has_option config name "tenantId"),
    (has_option config name "appId"),
    (has_option config name "appSecret"); cbn [negb orb];
    try (split; [discriminate|]; intros (c & [= <-] & _ & Hkeys);
         first [ assert (false = true) as Habs
                   by (apply Htenant, Hkeys; cbn; tauto)
               | assert (false = true) as Habs
                   by (apply Happ, Hkeys; cbn; tauto)
               | assert (false = true) as Habs
                   by (apply Hsecret, Hkeys; cbn; tauto) ];
         discriminate Habs).
  split; [intros _|reflexivity].
  exists config. split; [reflexivity|].
  split; [now apply config_contains_iff|].
  intros key [<-|[<-|[<-|[]]]];
    [now apply Htenant|now apply Happ|now apply Hsecret].
Qed.

Lemma authentication_succeeds_iff_witness :
  _authenticate demo_shared_read (mkDefenderForEndpoints "prod" "creds.ini")
    (start None)
  = (Ret tt, start None)
  /\ _authenticate demo_config_read (mkDefenderForEndpoints "default" "creds.ini")
       (start None)
     = (Raise (ValueError
                 "Credential file must contain tenantId, appId, and appSecret values"),
        start None)
  /\ exists config,
       demo_shared_read "creds.ini" = Ret config
       /\ ("prod" = "DEFAULT" \/ lookup "prod" config <> None)
       /\ forall key,
            In key ["tenantId"; "appId"; "appSecret"] ->
            exists spelling value,
              lower spelling = lower key
              /\ (In (spelling, value) (listed_options "prod" config)
                  \/ In (spelling, value) (listed_options "DEFAULT" config)).
Proof.
  split; [reflexivity|]. split; [reflexivity|].
  apply (proj2 (@authentication_succeeds_iff demo_shared_read "prod" "creds.ini"
                  (start None) ltac:(discriminate))).
  reflexivity.
Defined.
